(** * Spotify utility functions: a shallow embedding of [spotipy_func.py]

    The Python functions of [spotipy_func.py] are embedded as Rocq
    functions over a small model of the Python run time: JSON-shaped
    values, subscription, truthiness and exceptions.  Functions that talk
    to the Spotify Web API run in a state-and-exception monad whose state
    is the log of the requests issued so far.  [bootstrap_ci] of
    [plot_func.py] is embedded over binary64 numbers, with the random
    draws as a parameter. *)

From Stdlib Require Import String Ascii List ZArith Lia Bool Arith.
From Stdlib Require Import Floats Uint63.
Import ListNotations.
Open Scope string_scope.
Open Scope list_scope.
Set Warnings "-register-all".

(** ** Exceptions and the exception monad *)

(** The Python exceptions the embedded code can raise.  [ServiceError]
    stands for whatever the HTTP client raises on a failed request. *)
Inductive exn : Type :=
| KeyError
| TypeError
| IndexError
| AttributeError
| ValueError
| ServiceError (status : Z).

Inductive result (A : Type) : Type :=
| Ok (a : A)
| Raise (e : exn).

Arguments Ok {A} a.
Arguments Raise {A} e.

Definition rbind {A B : Type} (c : result A) (k : A -> result B) : result B :=
  match c with
  | Ok a => k a
  | Raise e => Raise e
  end.

Declare Scope result_scope.
Delimit Scope result_scope with result.
Notation "x <- c ;; k" := (rbind c (fun x => k))
  (at level 61, c at next level, right associativity) : result_scope.
Open Scope result_scope.

(** [for x in l: acc.append(f(x))], stopping at the first exception. *)
Fixpoint rmap {A B : Type} (f : A -> result B) (l : list A) : result (list B) :=
  match l with
  | [] => Ok []
  | x :: rest =>
      y <- f x ;;
      ys <- rmap f rest ;;
      Ok (y :: ys)
  end.

(** ** Python values *)

Module Py.

(** The values the JSON decoder produces.  A float is carried as its
    IEEE-754 binary64 bit pattern: this module never computes with one.
    A [dict] keeps its items in insertion order; its keys are strings, as
    in every decoded JSON object. *)
Inductive value : Type :=
| None_
| Bool (b : bool)
| Int (n : Z)
| Float (bits : Z)
| Str (s : string)
| List (l : list value)
| Dict (d : list (string * value)).

(** Lookup in the item list of a dict. *)
Fixpoint assoc (k : string) (d : list (string * value)) : option value :=
  match d with
  | [] => None
  | (k', v) :: rest => if String.eqb k k' then Some v else assoc k rest
  end.

(** [bool(v)]. *)
Definition truthy (v : value) : bool :=
  match v with
  | None_ => false
  | Bool b => b
  | Int n => negb (n =? 0)%Z
  | Float bits => negb (Z.land bits (Z.ones 63) =? 0)%Z
  | Str s => negb (String.eqb s "")
  | List l => match l with [] => false | _ :: _ => true end
  | Dict d => match d with [] => false | _ :: _ => true end
  end.

(** Positional access [l[i]] of a sequence, negative indices counting from
    the end. *)
Definition index {A : Type} (l : list A) (i : Z) : result A :=
  let n := Z.of_nat (length l) in
  let j := if (i <? 0)%Z then (i + n)%Z else i in
  if ((0 <=? j) && (j <? n))%Z then
    match nth_error l (Z.to_nat j) with
    | Some x => Ok x
    | None => Raise IndexError
    end
  else Raise IndexError.

(** The subscription [v[key]]. *)
Definition getitem (v key : value) : result value :=
  match v with
  | Dict d =>
      match key with
      | Str k =>
          match assoc k d with
          | Some x => Ok x
          | None => Raise KeyError
          end
      | List _ | Dict _ => Raise TypeError
      | _ => Raise KeyError
      end
  | List l =>
      match key with
      | Int i => index l i
      | Bool b => index l (if b then 1 else 0)%Z
      | _ => Raise TypeError
      end
  | Str s =>
      match key with
      | Int i =>
          c <- index (list_ascii_of_string s) i ;; Ok (Str (String c ""))
      | Bool b =>
          c <- index (list_ascii_of_string s) (if b then 1 else 0)%Z ;;
          Ok (Str (String c ""))
      | _ => Raise TypeError
      end
  | None_ | Bool _ | Int _ | Float _ => Raise TypeError
  end.

(** [d.get(key, default)]: only a dict has the method. *)
Definition get (v : value) (key : string) (default : value) : result value :=
  match v with
  | Dict d =>
      match assoc key d with
      | Some x => Ok x
      | None => Ok default
      end
  | _ => Raise AttributeError
  end.

(** The items [list.extend(v)] appends: the elements of a list, the keys
    of a dict, the characters of a string. *)
Definition iter (v : value) : result (list value) :=
  match v with
  | List l => Ok l
  | Dict d => Ok (map (fun kv => Str (fst kv)) d)
  | Str s => Ok (map (fun c => Str (String c "")) (list_ascii_of_string s))
  | None_ | Bool _ | Int _ | Float _ => Raise TypeError
  end.

(** [range(start, stop, step)] for a positive step. *)
Definition range (start stop step : nat) : list nat :=
  map (fun k => start + k * step) (seq 0 ((stop - start + (step - 1)) / step)).

(** The slice [l[i:j]] for [0 <= i <= j]. *)
Definition slice {A : Type} (l : list A) (i j : nat) : list A :=
  firstn (j - i) (skipn i l).

End Py.

(** [v[k]] for a string literal [k]. *)
Notation "v .[ k ]" := (Py.getitem v (Py.Str k))
  (at level 1, left associativity, format "v .[ k ]").

(** ** Bracketed field paths *)

Definition is_bracket (c : ascii) : bool :=
  (Ascii.eqb c "[" || Ascii.eqb c "]")%char.

(** [re.split(r'[\[\]]', string)]: the pieces between consecutive
    delimiters, one more than there are delimiters.  The delimiters are
    ASCII, so splitting the encoded bytes splits the text at the same
    places. *)
Fixpoint re_split_brackets (s : string) : list string :=
  match s with
  | EmptyString => [""]
  | String c rest =>
      if is_bracket c then "" :: re_split_brackets rest
      else
        match re_split_brackets rest with
        | part :: parts => String c part :: parts
        | [] => [String c ""]
        end
  end.

Definition nonempty (s : string) : bool := negb (String.eqb s "").

Definition split_by_brackets (s : string) : list string :=
  filter nonempty (re_split_brackets s).

(** [value = dic; for key in key_path: value = value[key]]. *)
Fixpoint get_nested_value (dic : Py.value) (key_path : list Py.value)
  : result Py.value :=
  match key_path with
  | [] => Ok dic
  | key :: rest =>
      value <- Py.getitem dic key ;;
      get_nested_value value rest
  end.

Definition get_track_info (track : Py.value) (features : list string)
  : result (list Py.value) :=
  rmap (fun feature =>
          let key_path := map Py.Str (split_by_brackets feature) in
          get_nested_value track key_path)
       features.

(** ** The table built by the flattener *)

Module Pandas.

(** A cell of a table.  pandas converts the values it is given column by
    column, to the type it infers for the column: what it stores for a
    value depends on that value and on the other values of its column.
    The conversion itself is not modelled: [Converted column raw] stands
    for whatever pandas stores for the value [raw] in a column built from
    the values [column]. *)
Inductive cell : Type :=
| Converted (column : list Py.value) (raw : Py.value).

(** The value a cell was built from. *)
Definition raw (c : cell) : Py.value :=
  match c with
  | Converted _ v => v
  end.

Record DataFrame : Type := mkDataFrame {
  columns : list string;
  rows : list (list cell)
}.

Definition width (data : list (list Py.value)) : nat :=
  fold_right Nat.max 0 (map (@length Py.value) data).

Definition pad (w : nat) (row : list Py.value) : list Py.value :=
  row ++ repeat Py.None_ (w - length row).

(** The values at position [j] of the rows. *)
Definition column (j : nat) (data : list (list Py.value)) : list Py.value :=
  map (fun row => nth j row Py.None_) data.

(** The cells of the table built from the rows [data]: each value,
    converted within its column. *)
Definition cells (data : list (list Py.value)) : list (list cell) :=
  map (fun row =>
         map (fun jv => Converted (column (fst jv) data) (snd jv))
             (combine (seq 0 (length row)) row))
      data.

(** [pd.DataFrame(data, columns=columns)] for a list of row lists: no
    data gives an empty table with the given header; otherwise the rows
    are laid out in a table as wide as the longest one, shorter rows
    filled up with [None], the values are converted column by column,
    and a width other than the number of column names is a
    [ValueError]. *)
Definition from_rows (data : list (list Py.value)) (columns : list string)
  : result DataFrame :=
  match data with
  | [] => Ok (mkDataFrame columns [])
  | _ :: _ =>
      let w := width data in
      if (w =? length columns)%nat
      then Ok (mkDataFrame columns (cells (map (pad w) data)))
      else Raise ValueError
  end.

End Pandas.

(** ** Flattening entries and audio features into rows *)

Definition column_names : list string :=
  ["added_at"; "track_name"; "track_id"; "artist"; "album"; "popularity";
   "danceability"; "energy"; "key"; "loudness"; "mode"; "speechiness";
   "acousticness"; "instrumentalness"; "liveness"; "valence"; "tempo";
   "duration_ms"; "time_signature"; "label"].

(** The list display bound to [track_details]: its elements are evaluated
    left to right and the first exception wins. *)
Definition track_details (item track features playlist_name : Py.value)
  : result (list Py.value) :=
  rmap (fun c => c)
    [ item.["added_at"];
      track.["name"];
      track.["id"];
      (artists <- track.["artists"] ;;
       artist <- Py.getitem artists (Py.Int 0) ;;
       artist.["name"]);
      (album <- track.["album"] ;; album.["name"]);
      track.["popularity"];
      features.["danceability"];
      features.["energy"];
      features.["key"];
      features.["loudness"];
      features.["mode"];
      features.["speechiness"];
      features.["acousticness"];
      features.["instrumentalness"];
      features.["liveness"];
      features.["valence"];
      features.["tempo"];
      features.["duration_ms"];
      features.["time_signature"];
      Ok playlist_name ].

(** The body of the loop of [merge_track_details_and_features] for a pair
    that passed the guard. *)
Definition track_row (item features playlist_name : Py.value)
    (extra_track_info : list string) : result (list Py.value) :=
  track <- item.["track"] ;;
  details <- track_details item track features playlist_name ;;
  match extra_track_info with
  | [] => Ok details
  | _ :: _ =>
      extra_features <- get_track_info item extra_track_info ;;
      Ok (details ++ extra_features)
  end.

(** [for item, features in zip(tracks, audio_features)]. *)
Fixpoint track_list (pairs : list (Py.value * Py.value))
    (playlist_name : Py.value) (extra_track_info : list string)
  : result (list (list Py.value)) :=
  match pairs with
  | [] => Ok []
  | (item, features) :: rest =>
      if negb (Py.truthy item) || negb (Py.truthy features) then
        track_list rest playlist_name extra_track_info
      else
        row <- track_row item features playlist_name extra_track_info ;;
        more <- track_list rest playlist_name extra_track_info ;;
        Ok (row :: more)
  end.

Definition merge_track_details_and_features
    (tracks audio_features : list Py.value) (playlist_name : Py.value)
    (extra_track_info : list string) : result Pandas.DataFrame :=
  data <- track_list (combine tracks audio_features) playlist_name
            extra_track_info ;;
  Pandas.from_rows data (column_names ++ extra_track_info).

(** ** The catalog client *)

(** A request sent to the Web API. *)
Inductive request : Type :=
| GetAudioFeatures (tracks : list Py.value)
| GetSearch (q : string) (type : string) (limit : nat).

(** The client handle [sp]: what each call answers, given the requests
    that were sent before it.  An answer is a decoded JSON value or an
    exception. *)
Record Spotify : Type := mkSpotify {
  audio_features : list request -> list Py.value -> result Py.value;
  search : list request -> string -> string -> nat -> result Py.value
}.

(** Code that uses the client: it reads and extends the log of requests
    and may raise. *)
Definition client (A : Type) : Type := list request -> result A * list request.

Definition cret {A : Type} (a : A) : client A := fun log => (Ok a, log).

Definition cbind {A B : Type} (c : client A) (k : A -> client B) : client B :=
  fun log =>
    match c log with
    | (Ok a, log') => k a log'
    | (Raise e, log') => (Raise e, log')
    end.

Definition lift {A : Type} (r : result A) : client A := fun log => (r, log).

Declare Scope client_scope.
Delimit Scope client_scope with client.
Notation "x <- c ;; k" := (cbind c (fun x => k))
  (at level 61, c at next level, right associativity) : client_scope.

Definition sp_audio_features (sp : Spotify) (batch : list Py.value)
  : client Py.value :=
  fun log => (audio_features sp log batch, log ++ [GetAudioFeatures batch]).

Definition sp_search (sp : Spotify) (q type : string) (limit : nat)
  : client Py.value :=
  fun log => (search sp log q type limit, log ++ [GetSearch q type limit]).

(** [for i in range(0, len(track_ids), 100)], with the accumulator
    [audio_features] of the source. *)
Fixpoint get_audio_features_loop (sp : Spotify) (track_ids : list Py.value)
    (starts : list nat) (acc : list Py.value) : client (list Py.value) :=
  match starts with
  | [] => cret acc
  | i :: rest =>
      let batch := Py.slice track_ids i (i + 100) in
      (answer <- sp_audio_features sp batch ;;
       items <- lift (Py.iter answer) ;;
       get_audio_features_loop sp track_ids rest (acc ++ items))%client
  end.

Definition get_audio_features (sp : Spotify) (track_ids : list Py.value)
  : client (list Py.value) :=
  get_audio_features_loop sp track_ids
    (Py.range 0 (length track_ids) 100) [].

(** [[item['track']['id'] for item in tracks if item['track']]]; the
    client handle is not used. *)
Fixpoint extract_track_ids (sp : Spotify) (tracks : list Py.value)
  : result (list Py.value) :=
  match tracks with
  | [] => Ok []
  | item :: rest =>
      cond <- item.["track"] ;;
      if Py.truthy cond then
        track <- item.["track"] ;;
        id <- track.["id"] ;;
        ids <- extract_track_ids sp rest ;;
        Ok (id :: ids)
      else extract_track_ids sp rest
  end.

(** The [time_points] argument: a plain list or a pandas [Series]. *)
Inductive time_points_arg : Type :=
| PyList (l : list Py.value)
| Series (l : list Py.value).

Definition len_time_points (time_points : time_points_arg) : nat :=
  match time_points with
  | PyList l => length l
  | Series l => length l
  end.

(** [time_points.iloc[i]]: a list has no attribute [iloc]. *)
Definition iloc (time_points : time_points_arg) (i : nat) : result Py.value :=
  match time_points with
  | PyList _ => Raise AttributeError
  | Series l => Py.index l (Z.of_nat i)
  end.

(** [f"track:{track_name} artist:{artist_name}"]. *)
Definition query_of (track_name artist_name : string) : string :=
  ("track:" ++ track_name ++ " artist:" ++ artist_name)%string.

(** [for i, (track_name, artist_name) in enumerate(zip(...))], with the
    accumulator [tracks] of the source. *)
Fixpoint search_loop (sp : Spotify) (time_points : time_points_arg)
    (i : nat) (pairs : list (string * string)) (tracks : list Py.value)
  : client (list Py.value) :=
  match pairs with
  | [] => cret tracks
  | (track_name, artist_name) :: rest =>
      let query := query_of track_name artist_name in
      (results <- sp_search sp query "track" 1 ;;
       found <- lift (Py.get results "tracks" (Py.Dict [])) ;;
       track_items <- lift (Py.get found "items" (Py.List [])) ;;
       if Py.truthy track_items then
         added_at <- lift (if (0 <? len_time_points time_points)%nat
                           then iloc time_points i else Ok Py.None_) ;;
         track <- lift (Py.getitem track_items (Py.Int 0)) ;;
         let song_format :=
           Py.Dict [("added_at", added_at); ("track", track)] in
         search_loop sp time_points (S i) rest (tracks ++ [song_format])
       else search_loop sp time_points (S i) rest tracks)%client
  end.

Definition get_tracks_by_names_and_artists (sp : Spotify)
    (track_names artist_names : list string) (time_points : time_points_arg)
  : client (list Py.value) :=
  if negb (length track_names =? length artist_names)%nat then
    lift (Raise ValueError)
  else if ((0 <? len_time_points time_points)
           && negb (length track_names =? len_time_points time_points))%nat then
    lift (Raise ValueError)
  else
    search_loop sp time_points 0 (combine track_names artist_names) [].

(** ** Bootstrap confidence interval ([plot_func.py]) *)

(** The NumPy functions [bootstrap_ci] calls, on binary64 numbers, as
    NumPy 1.22 and later compute them. *)
Module Np.

Local Open Scope float_scope.

(** A Python [int] as a binary64 number (exact below 2^53). *)
Definition of_Z (z : Z) : float :=
  if (z <? 0)%Z then - of_uint63 (Uint63.of_Z (- z))
  else of_uint63 (Uint63.of_Z z).

Definition of_nat (n : nat) : float := of_Z (Z.of_nat n).

















End Np.




(** ** Notions used to state the properties *)

(** A string free of bracket characters. *)
Fixpoint no_bracket (s : string) : bool :=
  match s with
  | EmptyString => true
  | String c rest => negb (is_bracket c) && no_bracket rest
  end.

(** The string with its bracket characters erased. *)
Fixpoint strip_brackets (s : string) : string :=
  match s with
  | EmptyString => EmptyString
  | String c rest =>
      if is_bracket c then strip_brackets rest
      else String c (strip_brackets rest)
  end.

(** The pieces written one after the other. *)
Definition join (parts : list string) : string :=
  fold_right String.append EmptyString parts.

(** Values that cannot be subscripted at all. *)
Definition scalar (v : Py.value) : bool :=
  match v with
  | Py.None_ | Py.Bool _ | Py.Int _ | Py.Float _ => true
  | Py.Str _ | Py.List _ | Py.Dict _ => false
  end.

(** [resolves root path v]: following the keys of [path] through nested
    dicts, each key present, leads from [root] to [v]. *)
Inductive resolves : Py.value -> list string -> Py.value -> Prop :=
| resolves_here v : resolves v [] v
| resolves_step d k w path v :
    Py.assoc k d = Some w ->
    resolves w path v ->
    resolves (Py.Dict d) (k :: path) v.

(** The 19 base columns of the table, in order. *)
Definition base_columns : list string :=
  ["added_at"; "track_name"; "track_id"; "artist"; "album"; "popularity";
   "danceability"; "energy"; "key"; "loudness"; "mode"; "speechiness";
   "acousticness"; "instrumentalness"; "liveness"; "valence"; "tempo";
   "duration_ms"; "time_signature"].

(** [surviving_ids tracks ids]: [ids] lists, in order, the identifier of
    every entry of [tracks] whose track reference is not null. *)
Inductive surviving_ids : list Py.value -> list Py.value -> Prop :=
| surviving_nil : surviving_ids [] []
| surviving_null d rest ids :
    Py.assoc "track" d = Some Py.None_ ->
    surviving_ids rest ids ->
    surviving_ids (Py.Dict d :: rest) ids
| surviving_track d t id rest ids :
    Py.assoc "track" d = Some (Py.Dict t) ->
    Py.assoc "id" t = Some id ->
    surviving_ids rest ids ->
    surviving_ids (Py.Dict d :: rest) (id :: ids).

(** A playlist entry as the Web API delivers it: a dict whose [track] is
    null or a dict with an [id]. *)
Definition playlist_entry (item : Py.value) : Prop :=
  exists d, item = Py.Dict d /\
    (Py.assoc "track" d = Some Py.None_ \/
     exists t id, Py.assoc "track" d = Some (Py.Dict t) /\
                  Py.assoc "id" t = Some id).

(** The batches the loop of [get_audio_features] forms. *)
Definition batches_of (track_ids : list Py.value) : list (list Py.value) :=
  map (fun i => Py.slice track_ids i (i + 100))
      (Py.range 0 (length track_ids) 100).

(** [answered sp log batches answers]: asked for [batches] one after the
    other, starting with the log [log], the service answers each request
    with a list, and [answers] are those lists. *)
Inductive answered (sp : Spotify)
  : list request -> list (list Py.value) -> list (list Py.value) -> Prop :=
| answered_nil log : answered sp log [] []
| answered_cons log batch batches answer answers :
    audio_features sp log batch = Ok (Py.List answer) ->
    answered sp (log ++ [GetAudioFeatures batch]) batches answers ->
    answered sp log (batch :: batches) (answer :: answers).

(** What the loop of [get_tracks_by_names_and_artists] reads from the
    answer to one search: the first of the returned items, if any. *)
Definition best_match (results : Py.value) : result (option Py.value) :=
  found <- Py.get results "tracks" (Py.Dict []) ;;
  track_items <- Py.get found "items" (Py.List []) ;;
  if Py.truthy track_items then
    track <- Py.getitem track_items (Py.Int 0) ;;
    Ok (Some track)
  else Ok None.

(** The request sent for one name and artist. *)
Definition search_request (pair : string * string) : request :=
  GetSearch (query_of (fst pair) (snd pair)) "track" 1.

(** [matched sp log pairs matches]: searched for [pairs] one after the
    other, starting with the log [log], the service answers every search,
    and [matches] are the best matches read from the answers. *)
Inductive matched (sp : Spotify)
  : list request -> list (string * string) -> list (option Py.value) -> Prop :=
| matched_nil log : matched sp log [] []
| matched_cons log pair pairs results m matches :
    search sp log (query_of (fst pair) (snd pair)) "track" 1 = Ok results ->
    best_match results = Ok m ->
    matched sp (log ++ [search_request pair]) pairs matches ->
    matched sp log (pair :: pairs) (m :: matches).

(** The time point stored with the match at index [i]. *)
Definition stamp (time_points : time_points_arg) (i : nat) : Py.value :=
  match time_points with
  | PyList _ => Py.None_
  | Series l => nth i l Py.None_
  end.

(** The entries kept for a list of best matches, the first of which has
    index [i]: one per match found, none for a search without match. *)
Fixpoint kept (time_points : time_points_arg) (i : nat)
    (matches : list (option Py.value)) : list Py.value :=
  match matches with
  | [] => []
  | Some track :: rest =>
      Py.Dict [("added_at", stamp time_points i); ("track", track)]
      :: kept time_points (S i) rest
  | None :: rest => kept time_points (S i) rest
  end.

(** The time points can be read up to index [bound]: none was given, or
    a [Series] with at least [bound] of them. *)
Definition readable (time_points : time_points_arg) (bound : nat) : Prop :=
  len_time_points time_points = 0 \/
  exists l, time_points = Series l /\ bound <= length l.

(** Records that carry every field the flattener reads. *)
Definition has_key (d : list (string * Py.value)) (k : string) : Prop :=
  exists v, Py.assoc k d = Some v.

Definition feature_keys : list string :=
  ["danceability"; "energy"; "key"; "loudness"; "mode"; "speechiness";
   "acousticness"; "instrumentalness"; "liveness"; "valence"; "tempo";
   "duration_ms"; "time_signature"].

Definition feature_vector (features : Py.value) : Prop :=
  exists d, features = Py.Dict d /\ Forall (has_key d) feature_keys.

Definition track_record (track : Py.value) : Prop :=
  exists t artist others album,
    track = Py.Dict t /\
    has_key t "name" /\ has_key t "id" /\ has_key t "popularity" /\
    Py.assoc "artists" t = Some (Py.List (Py.Dict artist :: others)) /\
    has_key artist "name" /\
    Py.assoc "album" t = Some (Py.Dict album) /\
    has_key album "name".

Definition full_entry (item : Py.value) : Prop :=
  exists d track,
    item = Py.Dict d /\ has_key d "added_at" /\
    Py.assoc "track" d = Some track /\ track_record track.

(** A pair the flattener can handle: the features are null, or entry and
    features are complete and every extra path resolves in the entry. *)
Definition flattenable (extra : list string) (pair : Py.value * Py.value)
  : Prop :=
  snd pair = Py.None_ \/
  (full_entry (fst pair) /\ feature_vector (snd pair) /\
   exists values, get_track_info (fst pair) extra = Ok values).

(** An entry whose track was removed from the catalog. *)
Definition null_track_entry (item : Py.value) : Prop :=
  exists d added_at,
    item = Py.Dict d /\
    Py.assoc "added_at" d = Some added_at /\
    Py.assoc "track" d = Some Py.None_.

(** ** Listing playlists and tracks *)

(** The requests of the listing functions.  [NextPage page] asks for the
    page that follows [page]. *)
Inductive listing_request : Type :=
| CurrentUserPlaylists
| PlaylistTracks (playlist_id : Py.value)
| CurrentUserSavedTracks (limit : nat)
| NextPage (page : Py.value).

(** The part of the client handle the listing functions use: what each
    call answers, given the requests sent before it. *)
Record Library : Type := mkLibrary {
  current_user_playlists : list listing_request -> result Py.value;
  playlist_tracks : list listing_request -> Py.value -> result Py.value;
  current_user_saved_tracks : list listing_request -> nat -> result Py.value;
  next : list listing_request -> Py.value -> result Py.value
}.

(** A run of listing code: [None] when the fuel of a [while] loop ran out
    before the loop ended, otherwise the result or exception and the log. *)
Definition listing (A : Type) : Type :=
  list listing_request -> option (result A * list listing_request).

Definition lret {A : Type} (a : A) : listing A := fun log => Some (Ok a, log).

Definition lbind {A B : Type} (c : listing A) (k : A -> listing B)
  : listing B :=
  fun log =>
    match c log with
    | Some (Ok a, log') => k a log'
    | Some (Raise e, log') => Some (Raise e, log')
    | None => None
    end.

Definition llift {A : Type} (r : result A) : listing A :=
  fun log => Some (r, log).

Definition out_of_fuel {A : Type} : listing A := fun _ => None.

Declare Scope listing_scope.
Delimit Scope listing_scope with listing.
Notation "x <- c ;; k" := (lbind c (fun x => k))
  (at level 61, c at next level, right associativity) : listing_scope.

Definition sp_current_user_playlists (sp : Library) : listing Py.value :=
  fun log => Some (current_user_playlists sp log, log ++ [CurrentUserPlaylists]).

Definition sp_playlist_tracks (sp : Library) (playlist_id : Py.value)
  : listing Py.value :=
  fun log => Some (playlist_tracks sp log playlist_id,
                   log ++ [PlaylistTracks playlist_id]).

Definition sp_current_user_saved_tracks (sp : Library) (limit : nat)
  : listing Py.value :=
  fun log => Some (current_user_saved_tracks sp log limit,
                   log ++ [CurrentUserSavedTracks limit]).

Definition sp_next (sp : Library) (page : Py.value) : listing Py.value :=
  fun log => Some (next sp log page, log ++ [NextPage page]).

(** [while results: ...] of [get_my_playlists]; one unit of fuel per test
    of the loop condition. *)
Fixpoint get_my_playlists_loop (fuel : nat) (sp : Library)
    (results : Py.value) (playlists : list Py.value)
  : listing (list Py.value) :=
  match fuel with
  | 0 => out_of_fuel
  | S fuel' =>
      if Py.truthy results then
        (items <- llift results.["items"] ;;
         more <- llift (Py.iter items) ;;
         following <- llift results.["next"] ;;
         if Py.truthy following then
           results' <- sp_next sp results ;;
           get_my_playlists_loop fuel' sp results' (playlists ++ more)
         else
           get_my_playlists_loop fuel' sp Py.None_ (playlists ++ more))%listing
      else lret playlists
  end.

Definition get_my_playlists (fuel : nat) (sp : Library)
  : listing (list Py.value) :=
  (results <- sp_current_user_playlists sp ;;
   get_my_playlists_loop fuel sp results [])%listing.

(** [while results['next']: ...] of [get_tracks]. *)
Fixpoint get_tracks_loop (fuel : nat) (sp : Library)
    (results : Py.value) (tracks : list Py.value)
  : listing (list Py.value) :=
  match fuel with
  | 0 => out_of_fuel
  | S fuel' =>
      (following <- llift results.["next"] ;;
       if Py.truthy following then
         results' <- sp_next sp results ;;
         items <- llift results'.["items"] ;;
         more <- llift (Py.iter items) ;;
         get_tracks_loop fuel' sp results' (tracks ++ more)
       else lret tracks)%listing
  end.

Definition get_tracks (fuel : nat) (sp : Library) (playlist_id : Py.value)
  : listing (list Py.value) :=
  (results <- (if Py.truthy playlist_id
               then sp_playlist_tracks sp playlist_id
               else sp_current_user_saved_tracks sp 50) ;;
   items <- llift results.["items"] ;;
   more <- llift (Py.iter items) ;;
   get_tracks_loop fuel sp results ([] ++ more))%listing.

(** [pages sp log page itemss requests]: [page] is the first of a finite
    run of pages, each but the last naming a next page that the service
    delivers on request; [itemss] are the item lists of the pages and
    [requests] the requests for the pages after the first. *)
Inductive pages (sp : Library)
  : list listing_request -> Py.value -> list (list Py.value)
    -> list listing_request -> Prop :=
| pages_last log d items following :
    Py.assoc "items" d = Some (Py.List items) ->
    Py.assoc "next" d = Some following ->
    Py.truthy following = false ->
    pages sp log (Py.Dict d) [items] []
| pages_more log d items following page' itemss requests :
    Py.assoc "items" d = Some (Py.List items) ->
    Py.assoc "next" d = Some following ->
    Py.truthy following = true ->
    next sp log (Py.Dict d) = Ok page' ->
    pages sp (log ++ [NextPage (Py.Dict d)]) page' itemss requests ->
    pages sp log (Py.Dict d) (items :: itemss)
      (NextPage (Py.Dict d) :: requests).

(** A service that answers every request for a next page with the same
    page, which itself names a next page. *)
Definition endless (sp : Library) (page : Py.value) : Prop :=
  (exists d items following,
      page = Py.Dict d /\
      Py.assoc "items" d = Some (Py.List items) /\
      Py.assoc "next" d = Some following /\
      Py.truthy following = true) /\
  forall log, next sp log page = Ok page.

(** ** Further notions *)

(** The path expression that names the keys [keys]: each key between
    brackets. *)
Fixpoint bracketed (keys : list string) : string :=
  match keys with
  | [] => EmptyString
  | key :: rest => ("[" ++ key ++ "]" ++ bracketed rest)%string
  end.

(** A key that can be written in a path expression. *)
Definition plain_key (key : string) : Prop :=
  key <> "" /\ no_bracket key = true.

(** Where the value of each base column is read: in the entry or in the
    feature vector, and along which keys. *)
Inductive origin : Type := FromEntry | FromFeatures.

Definition base_fields : list (string * (origin * list Py.value)) :=
  [("added_at", (FromEntry, [Py.Str "added_at"]));
   ("track_name", (FromEntry, [Py.Str "track"; Py.Str "name"]));
   ("track_id", (FromEntry, [Py.Str "track"; Py.Str "id"]));
   ("artist", (FromEntry, [Py.Str "track"; Py.Str "artists"; Py.Int 0;
                           Py.Str "name"]));
   ("album", (FromEntry, [Py.Str "track"; Py.Str "album"; Py.Str "name"]));
   ("popularity", (FromEntry, [Py.Str "track"; Py.Str "popularity"]));
   ("danceability", (FromFeatures, [Py.Str "danceability"]));
   ("energy", (FromFeatures, [Py.Str "energy"]));
   ("key", (FromFeatures, [Py.Str "key"]));
   ("loudness", (FromFeatures, [Py.Str "loudness"]));
   ("mode", (FromFeatures, [Py.Str "mode"]));
   ("speechiness", (FromFeatures, [Py.Str "speechiness"]));
   ("acousticness", (FromFeatures, [Py.Str "acousticness"]));
   ("instrumentalness", (FromFeatures, [Py.Str "instrumentalness"]));
   ("liveness", (FromFeatures, [Py.Str "liveness"]));
   ("valence", (FromFeatures, [Py.Str "valence"]));
   ("tempo", (FromFeatures, [Py.Str "tempo"]));
   ("duration_ms", (FromFeatures, [Py.Str "duration_ms"]));
   ("time_signature", (FromFeatures, [Py.Str "time_signature"]))].

(** The value a base field has for an entry and its features. *)
Definition read_field (item features : Py.value)
    (field : string * (origin * list Py.value)) : result Py.value :=
  match fst (snd field) with
  | FromEntry => get_nested_value item (snd (snd field))
  | FromFeatures => get_nested_value features (snd (snd field))
  end.

(** The exceptions a subscription can raise. *)
Definition lookup_error (e : exn) : Prop :=
  e = KeyError \/ e = TypeError \/ e = IndexError.

(** [delivered sp log batches itemss]: asked for [batches] one after the
    other, starting with the log [log], the service answers each request
    with a value that can be iterated, and [itemss] are the items of the
    answers. *)
Inductive delivered (sp : Spotify)
  : list request -> list (list Py.value) -> list (list Py.value) -> Prop :=
| delivered_nil log : delivered sp log [] []
| delivered_cons log batch batches answer items itemss :
    audio_features sp log batch = Ok answer ->
    Py.iter answer = Ok items ->
    delivered sp (log ++ [GetAudioFeatures batch]) batches itemss ->
    delivered sp log (batch :: batches) (items :: itemss).

(** The request for [batch], sent after [log], fails with [e]: the
    service raises [e], or answers with a value whose iteration raises
    [e]. *)
Definition fails (sp : Spotify) (log : list request) (batch : list Py.value)
    (e : exn) : Prop :=
  audio_features sp log batch = Raise e \/
  exists answer,
    audio_features sp log batch = Ok answer /\ Py.iter answer = Raise e.






(** Sample catalog records. *)
Module Sample.

Definition track (name id : string) : Py.value :=
  Py.Dict [("album", Py.Dict [("album_type", Py.Str "album");
                              ("name", Py.Str "Abbey Road")]);
           ("artists", Py.List [Py.Dict [("name", Py.Str "The Beatles")]]);
           ("id", Py.Str id);
           ("name", Py.Str name);
           ("popularity", Py.Int 80)].

Definition entry (added_at : string) (track : Py.value) : Py.value :=
  Py.Dict [("added_at", Py.Str added_at); ("track", track)].

Definition features : Py.value :=
  Py.Dict [("danceability", Py.Float 4602678819172646912);
           ("energy", Py.Float 4602678819172646912);
           ("key", Py.Int 9);
           ("loudness", Py.Float 13840406458360332288);
           ("mode", Py.Int 0);
           ("speechiness", Py.Float 4602678819172646912);
           ("acousticness", Py.Float 4602678819172646912);
           ("instrumentalness", Py.Float 0);
           ("liveness", Py.Float 4602678819172646912);
           ("valence", Py.Float 4602678819172646912);
           ("tempo", Py.Float 4638144666238189568);
           ("duration_ms", Py.Int 259946);
           ("time_signature", Py.Int 4)].

Definition come_together : Py.value :=
  entry "2024-09-01T10:00:00Z" (track "Come Together" "2EqlS6tkEnglzr7tkKAAYD").

Definition removed : Py.value := entry "2024-09-02T10:00:00Z" Py.None_.

Definition something : Py.value :=
  entry "2024-09-03T10:00:00Z" (track "Something" "0pNeVovbiZHkulpGeOx1Gj").

(** A service that knows every identifier but one, and one song. *)
Definition lookup (id : Py.value) : Py.value :=
  match id with
  | Py.Str s => if String.eqb s "unknown" then Py.None_ else features
  | _ => Py.None_
  end.

Definition page (items : list Py.value) : Py.value :=
  Py.Dict [("tracks", Py.Dict [("items", Py.List items); ("total", Py.Int 1)])].

Definition service : Spotify :=
  mkSpotify
    (fun _ batch => Ok (Py.List (map lookup batch)))
    (fun _ q _ _ =>
       if String.eqb q "track:Something artist:The Beatles"
       then Ok (page [track "Something" "0pNeVovbiZHkulpGeOx1Gj"])
       else Ok (page [])).

Definition ids : list Py.value :=
  repeat (Py.Str "2EqlS6tkEnglzr7tkKAAYD") 249 ++ [Py.Str "unknown"].

End Sample.

(** Sample pages of a library. *)
Module SamplePages.

Definition first : Py.value :=
  Py.Dict [("items", Py.List [Sample.come_together; Sample.removed]);
           ("next", Py.Str "https://api.spotify.com/v1/me/tracks?offset=2")].

Definition last : Py.value :=
  Py.Dict [("items", Py.List [Sample.something]); ("next", Py.None_)].

(** Two pages, whatever is listed. *)
Definition library : Library :=
  mkLibrary
    (fun _ => Ok first)
    (fun _ _ => Ok first)
    (fun _ _ => Ok first)
    (fun log _ => if (length log =? 1)%nat then Ok last else Ok Py.None_).

(** The first page over and over. *)
Definition looping : Library :=
  mkLibrary
    (fun _ => Ok first)
    (fun _ _ => Ok first)
    (fun _ _ => Ok first)
    (fun _ _ => Ok first).

(** No page at all. *)
Definition silent : Library :=
  mkLibrary
    (fun _ => Ok Py.None_)
    (fun _ _ => Ok Py.None_)
    (fun _ _ => Ok Py.None_)
    (fun _ _ => Ok Py.None_).

End SamplePages.

(** * Properties *)

(** ** Bracketed paths *)

Lemma re_split_brackets_no_bracket (s : string) :
  Forall (fun part => no_bracket part = true) (re_split_brackets s).
Proof.
  induction s as [|c rest IH]; simpl.
  - repeat constructor.
  - destruct (is_bracket c) eqn:Hc.
    + constructor; [reflexivity | exact IH].
    + destruct (re_split_brackets rest) as [|part parts].
      * constructor; [simpl; now rewrite Hc | constructor].
      * inversion IH; subst. constructor; [simpl | assumption].
        now rewrite Hc.
Qed.

Lemma join_re_split_brackets (s : string) :
  join (re_split_brackets s) = strip_brackets s.
Proof.
  induction s as [|c rest IH]; simpl; [reflexivity|].
  destruct (is_bracket c); [exact IH|].
  destruct (re_split_brackets rest) as [|part parts]; simpl in *;
    now rewrite <- IH.
Qed.

Lemma join_filter_nonempty (parts : list string) :
  join (filter nonempty parts) = join parts.
Proof.
  induction parts as [|p ps IH]; simpl; [reflexivity|].
  destruct p as [|c p']; simpl; [exact IH | now rewrite IH].
Qed.

Lemma re_split_brackets_plain (s : string) :
  no_bracket s = true -> re_split_brackets s = [s].
Proof.
  induction s as [|c rest IH]; simpl; [reflexivity|].
  intros H. apply andb_true_iff in H as [Hc Hrest].
  apply negb_true_iff in Hc. rewrite Hc, (IH Hrest). reflexivity.
Qed.

Lemma nonempty_true (s : string) : nonempty s = true <-> s <> "".
Proof.
  unfold nonempty. destruct s; simpl; split; congruence.
Qed.

(** C4. [split_by_brackets] splits at every '[' and ']' and drops the
    empty pieces: the three documented examples hold; every piece it
    returns is non-empty and bracket-free; the pieces written in order
    are the input without its brackets; and a non-empty input without
    brackets comes back as its single piece. *)
Theorem split_by_brackets_spec :
  split_by_brackets "[a][b][c]" = ["a"; "b"; "c"] /\
  split_by_brackets "abc" = ["abc"] /\
  split_by_brackets "[][a][]" = ["a"] /\
  (forall s, Forall (fun part => part <> "" /\ no_bracket part = true)
               (split_by_brackets s)) /\
  (forall s, join (split_by_brackets s) = strip_brackets s) /\
  (forall s, s <> "" -> no_bracket s = true -> split_by_brackets s = [s]).
Proof.
  do 3 (split; [reflexivity|]). split; [|split]; intros s.
  - apply Forall_forall. intros part Hin.
    apply filter_In in Hin as [Hin Hne]. split.
    + now apply nonempty_true.
    + pose proof (re_split_brackets_no_bracket s) as Hall.
      rewrite Forall_forall in Hall. now apply Hall.
  - unfold split_by_brackets.
    now rewrite join_filter_nonempty, join_re_split_brackets.
  - intros Hne Hplain. unfold split_by_brackets.
    rewrite (re_split_brackets_plain _ Hplain). simpl.
    apply nonempty_true in Hne. now rewrite Hne.
Qed.

Lemma split_by_brackets_spec_witness :
  split_by_brackets "album_type" = ["album_type"].
Proof.
  apply (proj2 (proj2 (proj2 (proj2 (proj2 split_by_brackets_spec))))
           "album_type").
  - discriminate.
  - reflexivity.
Defined.

(** ** Nested lookup *)

Lemma get_nested_value_app (root : Py.value) (pre post : list Py.value) :
  get_nested_value root (pre ++ post) =
  (v <- get_nested_value root pre ;; get_nested_value v post).
Proof.
  revert root. induction pre as [|key pre IH]; intros root; simpl.
  - reflexivity.
  - destruct (Py.getitem root key) as [w|e]; simpl; [apply IH | reflexivity].
Qed.

Lemma getitem_scalar (v key : Py.value) :
  scalar v = true -> Py.getitem v key = Raise TypeError.
Proof. destruct v; simpl; congruence. Qed.

Lemma getitem_str_not_dict (v : Py.value) (k : string) :
  (forall d, v <> Py.Dict d) -> v.[k] = Raise TypeError.
Proof. destruct v; simpl; try reflexivity. intros H. now destruct (H d). Qed.

Lemma get_nested_value_resolves (root : Py.value) (path : list string)
    (v : Py.value) :
  resolves root path v -> get_nested_value root (map Py.Str path) = Ok v.
Proof.
  induction 1 as [v|d k w path v Hk _ IH]; simpl.
  - reflexivity.
  - now rewrite Hk.
Qed.

(** C5. [get_nested_value] subscripts the root one key after the other.
    It returns the value at the end of the path when every key is present
    (as in the documented example, which gives 10), and raises, with no
    default value in place of the result, as soon as a key is missing
    from a dict ([KeyError]), a scalar is subscripted, or anything but a
    dict is subscripted with a string key ([TypeError], as for the path
    a, b in the dict that maps a to 1). *)
Theorem get_nested_value_spec :
  get_nested_value
    (Py.Dict [("a", Py.Dict [("b", Py.Dict [("c", Py.Int 10)])])])
    [Py.Str "a"; Py.Str "b"; Py.Str "c"] = Ok (Py.Int 10) /\
  get_nested_value (Py.Dict [("a", Py.Int 1)]) [Py.Str "a"; Py.Str "b"]
    = Raise TypeError /\
  (forall root pre key post,
      get_nested_value root (pre ++ key :: post) =
      (v <- get_nested_value root pre ;;
       w <- Py.getitem v key ;;
       get_nested_value w post)) /\
  (forall root path v,
      resolves root path v ->
      get_nested_value root (map Py.Str path) = Ok v) /\
  (forall root pre d k post,
      get_nested_value root pre = Ok (Py.Dict d) ->
      Py.assoc k d = None ->
      get_nested_value root (pre ++ Py.Str k :: post) = Raise KeyError) /\
  (forall root pre v key post,
      get_nested_value root pre = Ok v ->
      scalar v = true ->
      get_nested_value root (pre ++ key :: post) = Raise TypeError) /\
  (forall root pre v k post,
      get_nested_value root pre = Ok v ->
      (forall d, v <> Py.Dict d) ->
      get_nested_value root (pre ++ Py.Str k :: post) = Raise TypeError).
Proof.
  do 2 (split; [reflexivity|]). split; [|split; [|split; [|split]]].
  - intros. now rewrite get_nested_value_app.
  - apply get_nested_value_resolves.
  - intros root pre d k post Hpre Hk.
    rewrite get_nested_value_app, Hpre. simpl. now rewrite Hk.
  - intros root pre v key post Hpre Hv.
    rewrite get_nested_value_app, Hpre. simpl.
    now rewrite (getitem_scalar _ key Hv).
  - intros root pre v k post Hpre Hv.
    rewrite get_nested_value_app, Hpre. cbn [rbind get_nested_value].
    now rewrite (getitem_str_not_dict _ k Hv).
Qed.

Lemma get_nested_value_spec_witness :
  get_nested_value
    (Py.Dict [("track", Py.Dict [("album", Py.Dict [("name", Py.None_)])])])
    (map Py.Str ["track"; "album"; "name"]) = Ok Py.None_ /\
  get_nested_value
    (Py.Dict [("track", Py.Dict [("album", Py.Dict [("name", Py.None_)])])])
    ([Py.Str "track"] ++ Py.Str "artists" :: [Py.Int 0]) = Raise KeyError /\
  get_nested_value
    (Py.Dict [("track", Py.Dict [("album", Py.Dict [("name", Py.None_)])])])
    ([Py.Str "track"; Py.Str "album"; Py.Str "name"] ++ Py.Str "x" :: [])
    = Raise TypeError.
Proof.
  destruct get_nested_value_spec as (_ & _ & _ & Hres & Hkey & Hscalar & _).
  split; [|split].
  - apply Hres. repeat (econstructor; try reflexivity).
  - eapply Hkey; reflexivity.
  - eapply Hscalar; reflexivity.
Defined.

(** ** Flattening *)

Lemma truthy_dict_assoc (d : list (string * Py.value)) (k : string)
    (v : Py.value) :
  Py.assoc k d = Some v -> Py.truthy (Py.Dict d) = true.
Proof. destruct d; simpl; congruence. Qed.

(** A pair whose feature vector is null is skipped. *)
Lemma track_list_skips_null_features item rest playlist_name extra :
  track_list ((item, Py.None_) :: rest) playlist_name extra =
  track_list rest playlist_name extra.
Proof. simpl. now rewrite orb_true_r. Qed.

(** A pair whose entry is itself null is skipped. *)
Lemma track_list_skips_null_item features rest playlist_name extra :
  track_list ((Py.None_, features) :: rest) playlist_name extra =
  track_list rest playlist_name extra.
Proof. reflexivity. Qed.

(** An entry whose track reference is null passes the guard, and the
    first subscription of the null track raises. *)
Lemma track_list_null_track d added_at features rest playlist_name extra :
  Py.assoc "added_at" d = Some added_at ->
  Py.assoc "track" d = Some Py.None_ ->
  Py.truthy features = true ->
  track_list ((Py.Dict d, features) :: rest) playlist_name extra
  = Raise TypeError.
Proof.
  intros Hadded Htrack Hfeat. cbn [track_list].
  rewrite (truthy_dict_assoc _ _ _ Htrack), Hfeat.
  cbn [negb orb]. unfold track_row.
  cbn [Py.getitem]. rewrite Htrack. cbn [rbind].
  unfold track_details. cbn [rmap Py.getitem]. now rewrite Hadded.
Qed.

(** *** The schema of the table *)

Lemma rmap_length {A B : Type} (f : A -> result B) (l : list A)
    (ys : list B) :
  rmap f l = Ok ys -> length ys = length l.
Proof.
  revert ys. induction l as [|x l IH]; simpl; intros ys H.
  - now inversion H.
  - destruct (f x) as [y|e]; simpl in H; [|discriminate].
    destruct (rmap f l) as [ys'|e]; simpl in H; [|discriminate].
    inversion H; subst. simpl. now rewrite (IH ys').
Qed.

Lemma rmap_nth_error {A B : Type} (f : A -> result B) (l : list A)
    (ys : list B) (i : nat) (x : A) :
  rmap f l = Ok ys -> nth_error l i = Some x ->
  exists y, f x = Ok y /\ nth_error ys i = Some y.
Proof.
  revert ys i. induction l as [|x' l IH]; simpl; intros ys i H Hi.
  - destruct i; discriminate.
  - destruct (f x') as [y'|e] eqn:Hfx; simpl in H; [|discriminate].
    destruct (rmap f l) as [ys'|e]; simpl in H; [|discriminate].
    inversion H; subst. destruct i as [|i]; simpl in *.
    + inversion Hi; subst. now exists y'.
    + now apply IH.
Qed.

Lemma track_details_shape item track features playlist_name details :
  track_details item track features playlist_name = Ok details ->
  length details = 20 /\ nth_error details 19 = Some playlist_name.
Proof.
  unfold track_details. intros H. split.
  - now rewrite (rmap_length _ _ _ H).
  - destruct (rmap_nth_error _ _ _ 19 (Ok playlist_name) H eq_refl)
      as (y & Hy & Hnth).
    now inversion Hy; subst.
Qed.

Lemma get_track_info_length item extra values :
  get_track_info item extra = Ok values -> length values = length extra.
Proof. apply rmap_length. Qed.

Lemma track_row_shape item features playlist_name extra row :
  track_row item features playlist_name extra = Ok row ->
  length row = 20 + length extra /\
  nth_error row 19 = Some playlist_name /\
  get_track_info item extra = Ok (skipn 20 row).
Proof.
  unfold track_row. intros H.
  destruct (item.["track"]) as [track|e]; cbn [rbind] in H; [|discriminate].
  destruct (track_details item track features playlist_name)
    as [details|e] eqn:Hd; cbn [rbind] in H; [|discriminate].
  apply track_details_shape in Hd as [Hlen Hlabel].
  destruct extra as [|path extra].
  - inversion H; subst. repeat split; try assumption.
    rewrite skipn_all2 by lia. reflexivity.
  - destruct (get_track_info item (path :: extra)) as [values|e] eqn:Hv;
      cbn [rbind] in H; [|discriminate].
    inversion H; subst. repeat split.
    + rewrite length_app, Hlen, (get_track_info_length _ _ _ Hv). reflexivity.
    + rewrite nth_error_app1 by lia. assumption.
    + rewrite skipn_app, skipn_all2 by lia.
      rewrite Hlen. simpl. reflexivity.
Qed.

Lemma rmap_Forall2 {A B : Type} (f : A -> result B) (l : list A)
    (ys : list B) :
  rmap f l = Ok ys <-> Forall2 (fun x y => f x = Ok y) l ys.
Proof.
  revert ys. induction l as [|x l IH]; intros ys; simpl.
  - split; intros H; inversion H; constructor.
  - split.
    + intros H. destruct (f x) as [y|e] eqn:Hx; cbn [rbind] in H;
        [|discriminate].
      destruct (rmap f l) as [ys'|e] eqn:Hl; cbn [rbind] in H;
        [|discriminate].
      inversion H; subst. constructor; [exact Hx | now apply IH].
    + intros H. inversion H as [|x' y l' ys' Hx Hrest]; subst.
      rewrite Hx. cbn [rbind]. apply IH in Hrest. now rewrite Hrest.
Qed.

Lemma rbind_ok_inv {A B : Type} (c : result A) (k : A -> result B) (b : B) :
  rbind c k = Ok b -> exists a, c = Ok a /\ k a = Ok b.
Proof. destruct c as [a|e]; simpl; [now exists a | discriminate]. Qed.

(** The values of the base columns in a row that is built. *)
Lemma track_row_fields item features playlist_name extra row :
  track_row item features playlist_name extra = Ok row ->
  Forall2 (fun field value => read_field item features field = Ok value)
          base_fields (firstn 19 row).
Proof.
  intros H.
  unfold track_row in H.
  apply rbind_ok_inv in H as (track & Htrack & H).
  apply rbind_ok_inv in H as (details & Hdetails & H).
  assert (Hrow : firstn 19 row = firstn 19 details).
  { pose proof (track_details_shape _ _ _ _ _ Hdetails) as [Hlen _].
    destruct extra as [|path extra].
    - now inversion H.
    - apply rbind_ok_inv in H as (values & _ & H). inversion H; subst.
      rewrite firstn_app. replace (19 - length details) with 0 by lia.
      cbn [firstn]. now rewrite app_nil_r. }
  rewrite Hrow. clear Hrow H.
  unfold track_details in Hdetails. apply rmap_Forall2 in Hdetails.
  repeat match goal with
         | H : Forall2 _ (_ :: _) _ |- _ =>
             inversion H; clear H; subst
         | H : Forall2 _ [] _ |- _ => inversion H; clear H; subst
         end.
  cbn [firstn]. unfold base_fields.
  repeat (constructor;
          [unfold read_field; cbn [fst snd get_nested_value];
           rewrite ?Htrack; cbn [rbind];
           repeat match goal with
                  | H : _ = Ok _ |- _ => rewrite H; cbn [rbind]
                  end;
           try reflexivity|]);
    try constructor.
  - apply rbind_ok_inv in H4 as (artists & Hartists & H4).
    apply rbind_ok_inv in H4 as (artist & Hartist & Hname).
    rewrite Hartists. cbn [rbind]. rewrite Hartist. cbn [rbind].
    now rewrite Hname.
  - apply rbind_ok_inv in H5 as (album & Halbum & Hname).
    rewrite Halbum. cbn [rbind]. now rewrite Hname.
Qed.

Lemma track_list_rows pairs playlist_name extra data :
  track_list pairs playlist_name extra = Ok data ->
  Forall (fun row => exists item features,
              In (item, features) pairs /\
              track_row item features playlist_name extra = Ok row)
         data.
Proof.
  revert data. induction pairs as [|[item features] rest IH];
    simpl; intros data H.
  - inversion H. constructor.
  - assert (Hstep : forall rows,
               Forall (fun row => exists item features,
                           In (item, features) rest /\
                           track_row item features playlist_name extra = Ok row)
                      rows ->
               Forall (fun row => exists item0 features0,
                           ((item, features) = (item0, features0) \/
                            In (item0, features0) rest) /\
                           track_row item0 features0 playlist_name extra
                           = Ok row)
                      rows).
    { intros rows Hrows. eapply Forall_impl; [|exact Hrows].
      intros row (i & f & Hin & Hrow). exists i, f. auto. }
    destruct (negb (Py.truthy item) || negb (Py.truthy features)).
    + apply Hstep, IH, H.
    + destruct (track_row item features playlist_name extra)
        as [row|e] eqn:Hrow; simpl in H; [|discriminate].
      destruct (track_list rest playlist_name extra) as [more|e];
        simpl in H; [|discriminate].
      inversion H; subst. constructor.
      * exists item, features. auto.
      * now apply Hstep, IH.
Qed.

Lemma width_uniform (n : nat) (row : list Py.value)
    (data : list (list Py.value)) :
  Forall (fun r => length r = n) (row :: data) ->
  Pandas.width (row :: data) = n.
Proof.
  revert row. induction data as [|r data IH]; intros row H; inversion H; subst.
  - unfold Pandas.width. simpl. lia.
  - change (Pandas.width (row :: r :: data))
      with (Nat.max (length row) (Pandas.width (r :: data))).
    rewrite (IH r) by assumption.
    inversion H3; subst. lia.
Qed.

Lemma map_pad_uniform (n : nat) (data : list (list Py.value)) :
  Forall (fun r => length r = n) data -> map (Pandas.pad n) data = data.
Proof.
  induction 1 as [|r data Hr _ IH]; simpl; [reflexivity|].
  rewrite IH. unfold Pandas.pad.
  rewrite Hr, Nat.sub_diag. simpl. now rewrite app_nil_r.
Qed.

Lemma raw_cells_row (data : list (list Py.value)) (row : list Py.value) :
  map Pandas.raw
    (map (fun jv => Pandas.Converted (Pandas.column (fst jv) data) (snd jv))
         (combine (seq 0 (length row)) row))
  = row.
Proof.
  rewrite map_map. cbn [Pandas.raw].
  generalize 0. induction row as [|v row IH]; intros start; simpl;
    [reflexivity|].
  now rewrite IH.
Qed.

(** Every cell of a table stands for the value at its place in the rows
    the table was built from. *)
Lemma raw_cells (data : list (list Py.value)) :
  map (map Pandas.raw) (Pandas.cells data) = data.
Proof.
  unfold Pandas.cells. rewrite map_map.
  assert (H : forall rows : list (list Py.value),
             map (fun row =>
                    map Pandas.raw
                      (map (fun jv => Pandas.Converted
                                        (Pandas.column (fst jv) data) (snd jv))
                           (combine (seq 0 (length row)) row)))
                 rows = rows).
  { induction rows as [|row rows IH]; simpl; [reflexivity|].
    now rewrite raw_cells_row, IH. }
  apply H.
Qed.

Lemma cells_length (data : list (list Py.value)) :
  length (Pandas.cells data) = length data.
Proof. unfold Pandas.cells. apply length_map. Qed.

(** The table constructor accepts rows that all have one value per column
    name, and builds the table from exactly these values. *)
Lemma from_rows_uniform (data : list (list Py.value)) (columns : list string) :
  Forall (fun r => length r = length columns) data ->
  Pandas.from_rows data columns
  = Ok (Pandas.mkDataFrame columns (Pandas.cells data)).
Proof.
  intros H. destruct data as [|row data]; [reflexivity|].
  unfold Pandas.from_rows.
  rewrite (width_uniform _ _ _ H), Nat.eqb_refl.
  now rewrite (map_pad_uniform _ _ H).
Qed.

(** Once every row was built, building the table cannot fail. *)
Lemma merge_of_track_list tracks audio_features playlist_name extra data :
  track_list (combine tracks audio_features) playlist_name extra = Ok data ->
  merge_track_details_and_features tracks audio_features playlist_name extra
  = Ok (Pandas.mkDataFrame (column_names ++ extra) (Pandas.cells data)).
Proof.
  intros H. unfold merge_track_details_and_features. rewrite H.
  cbn [rbind]. apply from_rows_uniform.
  eapply Forall_impl; [|exact (track_list_rows _ _ _ _ H)].
  intros row (item & features & _ & Hrow).
  apply track_row_shape in Hrow as (Hlen & _).
  rewrite length_app, Hlen. reflexivity.
Qed.

(** *** The flattener returns on complete records *)

Lemma track_row_returns item features playlist_name extra :
  full_entry item -> feature_vector features ->
  (exists values, get_track_info item extra = Ok values) ->
  exists row, track_row item features playlist_name extra = Ok row.
Proof.
  intros (d & track & -> & (added_at & Hadded) & Htrack & Hrecord)
         (fd & -> & Hkeys) (values & Hvalues).
  destruct Hrecord as (t & artist & others & album & -> & (name & Hname)
                       & (id & Hid) & (pop & Hpop) & Hartists
                       & (aname & Haname) & Halbum & (alname & Halname)).
  unfold feature_keys in Hkeys.
  repeat match goal with
         | H : Forall _ (_ :: _) |- _ =>
             let v := fresh "v" in
             let Hv := fresh "Hv" in
             let H' := fresh "Hkeys" in
             apply Forall_cons_iff in H as [(v & Hv) H']
         end.
  unfold track_row, track_details. cbn [Py.getitem].
  rewrite Htrack. cbn [rbind rmap Py.getitem].
  repeat match goal with
         | H : Py.assoc _ _ = Some _ |- _ => rewrite H; clear H
         end.
  cbn [rbind Py.getitem].
  repeat match goal with
         | H : Py.assoc _ _ = Some _ |- _ => rewrite H; clear H
         end.
  cbn [rbind Py.index length]. cbn.
  repeat match goal with
         | H : Py.assoc _ _ = Some _ |- _ => rewrite H; clear H
         end.
  cbn. destruct extra; [eexists; reflexivity|].
  rewrite Hvalues. eexists. reflexivity.
Qed.

Lemma full_entry_truthy item : full_entry item -> Py.truthy item = true.
Proof.
  intros (d & track & -> & _ & Htrack & _).
  exact (truthy_dict_assoc _ _ _ Htrack).
Qed.

Lemma feature_vector_truthy features :
  feature_vector features -> Py.truthy features = true.
Proof.
  intros (d & -> & Hkeys). unfold feature_keys in Hkeys.
  apply Forall_cons_iff in Hkeys as [(v & Hv) _].
  exact (truthy_dict_assoc _ _ _ Hv).
Qed.

Lemma track_list_returns pairs playlist_name extra :
  Forall (flattenable extra) pairs ->
  exists data,
    track_list pairs playlist_name extra = Ok data /\
    length data = length (filter (fun pair => Py.truthy (snd pair)) pairs).
Proof.
  induction 1 as [|[item features] rest Hpair _ (data & IH & Hcount)].
  - exists []. split; reflexivity.
  - cbn [track_list filter snd].
    destruct Hpair as [Hnull | (Hitem & Hfeatures & Hextra)];
      cbn [fst snd] in *.
    + subst features. cbn [Py.truthy negb]. rewrite orb_true_r.
      exists data. split; assumption.
    + rewrite (full_entry_truthy _ Hitem),
        (feature_vector_truthy _ Hfeatures).
      cbn [negb orb].
      destruct (track_row_returns item features playlist_name extra
                  Hitem Hfeatures Hextra) as (row & Hrow).
      rewrite Hrow, IH. cbn [rbind].
      exists (row :: data). split; [reflexivity|]. simpl. now rewrite Hcount.
Qed.

(** On aligned sequences of complete records, null feature vectors
    allowed, the flattener returns a table with one row per pair whose
    features are not null. *)
Lemma merge_returns tracks audio_features playlist_name extra :
  Forall (flattenable extra) (combine tracks audio_features) ->
  exists df,
    merge_track_details_and_features tracks audio_features playlist_name extra
    = Ok df /\
    length (Pandas.rows df)
    = length (filter (fun pair => Py.truthy (snd pair))
                     (combine tracks audio_features)).
Proof.
  intros H.
  destruct (track_list_returns _ playlist_name extra H) as (data & Hdata & Hn).
  eexists. split; [apply (merge_of_track_list _ _ _ _ _ Hdata)|].
  cbn [Pandas.rows]. now rewrite cells_length.
Qed.

(** *** A null track reference is not skipped *)

Lemma track_list_app before rest playlist_name extra :
  track_list (before ++ rest) playlist_name extra =
  (data <- track_list before playlist_name extra ;;
   more <- track_list rest playlist_name extra ;;
   Ok (data ++ more)).
Proof.
  induction before as [|[item features] before IH]; cbn [app track_list].
  - cbn [rbind]. now destruct (track_list rest playlist_name extra).
  - destruct (negb (Py.truthy item) || negb (Py.truthy features)).
    + exact IH.
    + rewrite IH.
      destruct (track_row item features playlist_name extra); cbn [rbind];
        [|reflexivity].
      destruct (track_list before playlist_name extra); cbn [rbind];
        [|reflexivity].
      now destruct (track_list rest playlist_name extra).
Qed.

Lemma combine_after {A B : Type} (before : list (A * B)) (xs : list A)
    (ys : list B) :
  combine (map fst before ++ xs) (map snd before ++ ys)
  = before ++ combine xs ys.
Proof.
  induction before as [|[a b] before IH]; simpl; [reflexivity|].
  now rewrite IH.
Qed.

(** C1. The flattener does not skip an entry whose track reference is
    null: when the pairs before it are flattened without error and its
    own feature vector is not null, [merge_track_details_and_features]
    raises [TypeError] and returns no table, whatever follows.  The guard
    tests the entry, not its track. *)
Theorem merge_null_track_raises
    (before : list (Py.value * Py.value)) (item features : Py.value)
    (tracks audio_features : list Py.value) (playlist_name : Py.value)
    (extra : list string) :
  Forall (flattenable extra) before ->
  null_track_entry item ->
  Py.truthy features = true ->
  merge_track_details_and_features
    (map fst before ++ item :: tracks)
    (map snd before ++ features :: audio_features)
    playlist_name extra
  = Raise TypeError.
Proof.
  intros Hbefore (d & added_at & -> & Hadded & Htrack) Hfeatures.
  unfold merge_track_details_and_features.
  rewrite combine_after, track_list_app.
  destruct (track_list_returns _ playlist_name extra Hbefore)
    as (data & -> & _).
  cbn [rbind combine].
  now rewrite (track_list_null_track _ _ _ _ _ _ Hadded Htrack Hfeatures).
Qed.

Lemma merge_null_track_raises_witness :
  merge_track_details_and_features
    [Sample.come_together; Sample.removed; Sample.something]
    [Sample.features; Sample.features; Sample.features]
    (Py.Str "liked") [] = Raise TypeError.
Proof.
  apply (merge_null_track_raises
           [(Sample.come_together, Sample.features)]
           Sample.removed Sample.features
           [Sample.something] [Sample.features] (Py.Str "liked") []).
  - constructor; [|constructor]. right. split; [|split].
    + unfold full_entry, track_record, has_key. cbn [fst].
      do 2 eexists. split; [reflexivity|]. split; [eexists; reflexivity|].
      split; [reflexivity|]. do 4 eexists.
      repeat (split; [reflexivity || (eexists; reflexivity)|]).
      eexists; reflexivity.
    + unfold feature_vector, has_key, feature_keys. cbn [snd].
      eexists. split; [reflexivity|].
      repeat (constructor; [eexists; reflexivity|]). constructor.
    + eexists. reflexivity.
  - unfold null_track_entry. do 2 eexists.
    split; [reflexivity|]. split; reflexivity.
  - reflexivity.
Defined.

(** C2. Whenever [merge_track_details_and_features] returns a table, its
    header is the 19 base column names, then [label], then the extra
    paths verbatim, 20 + k names in all, and every row of the table has
    one cell per column name.  The table is built, cell by cell, from the
    value lists the loop emits, and every emitted value list has one
    value per column name, in the order of the header: the values of the
    19 base columns, each read at its place in the entry or the feature
    vector, the label at position 19, and after it the values of the
    extra paths, in path order, read from the entry of that row. *)
Theorem merge_schema tracks audio_features playlist_name extra df :
  merge_track_details_and_features tracks audio_features playlist_name extra
  = Ok df ->
  Pandas.columns df = base_columns ++ ["label"] ++ extra /\
  length (Pandas.columns df) = 20 + length extra /\
  Forall (fun row => length row = length (Pandas.columns df))
         (Pandas.rows df) /\
  exists data,
    track_list (combine tracks audio_features) playlist_name extra = Ok data /\
    map (map Pandas.raw) (Pandas.rows df) = data /\
    Forall (fun row =>
              length row = length (Pandas.columns df) /\
              nth_error row 19 = Some playlist_name /\
              exists item features,
                In (item, features) (combine tracks audio_features) /\
                Forall2 (fun field value =>
                           read_field item features field = Ok value)
                        base_fields (firstn 19 row) /\
                get_track_info item extra = Ok (skipn 20 row))
           data.
Proof.
  intros H.
  destruct (track_list (combine tracks audio_features) playlist_name extra)
    as [data|e] eqn:Hdata.
  - rewrite (merge_of_track_list _ _ _ _ _ Hdata) in H.
    inversion H; subst; clear H. cbn [Pandas.columns Pandas.rows].
    assert (Hrows : Forall (fun row =>
                length row = length (column_names ++ extra) /\
                nth_error row 19 = Some playlist_name /\
                exists item features,
                  In (item, features) (combine tracks audio_features) /\
                  Forall2 (fun field value =>
                             read_field item features field = Ok value)
                          base_fields (firstn 19 row) /\
                  get_track_info item extra = Ok (skipn 20 row)) data).
    { eapply Forall_impl; [|exact (track_list_rows _ _ _ _ Hdata)].
      intros row (item & features & Hin & Hrow).
      pose proof (track_row_fields _ _ _ _ _ Hrow) as Hfields.
      apply track_row_shape in Hrow as (Hlen & Hlabel & Hextra).
      split; [rewrite length_app, Hlen; reflexivity|].
      split; [exact Hlabel|]. exists item, features. auto. }
    split; [reflexivity|]. split; [reflexivity|]. split.
    + rewrite <- (raw_cells data) in Hrows.
      rewrite Forall_map in Hrows.
      eapply Forall_impl; [|exact Hrows].
      intros row (Hlen & _). now rewrite length_map in Hlen.
    + exists data. split; [reflexivity|]. split; [apply raw_cells|].
      exact Hrows.
  - unfold merge_track_details_and_features in H. rewrite Hdata in H.
    discriminate.
Qed.

Lemma merge_schema_witness :
  exists df,
    merge_track_details_and_features
      [Sample.come_together; Sample.something]
      [Sample.features; Py.None_]
      (Py.Str "liked") ["[track][album][album_type]"] = Ok df /\
    Pandas.columns df
    = base_columns ++ ["label"] ++ ["[track][album][album_type]"] /\
    length (Pandas.rows df) = 1.
Proof.
  eexists. split; [reflexivity|]. split; [|reflexivity].
  exact (proj1 (merge_schema
                  [Sample.come_together; Sample.something]
                  [Sample.features; Py.None_]
                  (Py.Str "liked") ["[track][album][album_type]"] _ eq_refl)).
Defined.

(** ** Track identifiers *)

Lemma playlist_entries_survive (tracks : list Py.value) :
  Forall playlist_entry tracks -> exists ids, surviving_ids tracks ids.
Proof.
  induction 1 as [|item rest (d & -> & Hitem) _ (ids & IH)].
  - exists []. constructor.
  - destruct Hitem as [Hnull | (t & id & Ht & Hid)].
    + exists ids. now constructor.
    + exists (id :: ids). econstructor; eassumption.
Qed.

Lemma surviving_ids_length (tracks ids : list Py.value) :
  surviving_ids tracks ids -> length ids <= length tracks.
Proof. induction 1; simpl; lia. Qed.

Lemma extract_track_ids_surviving (sp : Spotify) (tracks ids : list Py.value) :
  surviving_ids tracks ids -> extract_track_ids sp tracks = Ok ids.
Proof.
  induction 1 as [|d rest ids Hnull _ IH|d t id rest ids Ht Hid _ IH];
    cbn [extract_track_ids Py.getitem].
  - reflexivity.
  - rewrite Hnull. exact IH.
  - rewrite Ht. cbn [rbind]. rewrite (truthy_dict_assoc _ _ _ Hid).
    cbn [rbind Py.getitem]. rewrite Hid, IH. reflexivity.
Qed.

(** C8. [extract_track_ids] returns the identifiers of the entries whose
    track reference is not null, in input order, so never more than there
    are entries; it sends no request and leaves its input as it was, so a
    second call on the same list returns the same identifiers. *)
Theorem extract_track_ids_spec (sp : Spotify) (tracks ids : list Py.value) :
  surviving_ids tracks ids ->
  extract_track_ids sp tracks = Ok ids /\
  length ids <= length tracks /\
  (forall log,
      (first <- lift (extract_track_ids sp tracks) ;;
       second <- lift (extract_track_ids sp tracks) ;;
       cret (first, second))%client log = (Ok (ids, ids), log)).
Proof.
  intros H. pose proof (extract_track_ids_surviving sp _ _ H) as Hids.
  split; [exact Hids|]. split; [now apply surviving_ids_length|].
  intros log. unfold cbind, lift, cret. now rewrite Hids.
Qed.

Lemma extract_track_ids_spec_witness :
  extract_track_ids (mkSpotify (fun _ _ => Ok Py.None_)
                               (fun _ _ _ _ => Ok Py.None_))
    [Sample.come_together; Sample.removed; Sample.something]
  = Ok [Py.Str "2EqlS6tkEnglzr7tkKAAYD"; Py.Str "0pNeVovbiZHkulpGeOx1Gj"].
Proof.
  apply extract_track_ids_spec.
  eapply surviving_track; [reflexivity | reflexivity |].
  eapply surviving_null; [reflexivity |].
  eapply surviving_track; [reflexivity | reflexivity |].
  apply surviving_nil.
Defined.

(** ** Batched feature lookup *)

Lemma firstn_add_skipn {A : Type} (a b : nat) (l : list A) :
  firstn (a + b) l = firstn a l ++ firstn b (skipn a l).
Proof.
  revert l. induction a as [|a IH]; intros l; simpl; [reflexivity|].
  destruct l as [|x l]; simpl.
  - now rewrite firstn_nil.
  - now rewrite IH.
Qed.

Lemma slice_step {A : Type} (l : list A) (i n : nat) :
  Py.slice l i (i + n) = firstn n (skipn i l).
Proof. unfold Py.slice. f_equal. lia. Qed.

Lemma concat_slices {A : Type} (l : list A) (n m : nat) :
  concat (map (fun i => Py.slice l i (i + n))
              (map (fun k => 0 + k * n) (seq 0 m)))
  = firstn (m * n) l.
Proof.
  induction m as [|m IH]; [reflexivity|].
  rewrite seq_S, !map_app, concat_app, IH. simpl.
  rewrite app_nil_r, slice_step.
  replace (n + m * n) with (m * n + n) by lia.
  now rewrite firstn_add_skipn.
Qed.

Lemma range_covers (len n : nat) :
  0 < n -> len <= (len - 0 + (n - 1)) / n * n.
Proof.
  intros Hn. pose proof (Nat.div_mod_eq (len - 0 + (n - 1)) n) as Hdiv.
  pose proof (Nat.mod_upper_bound (len - 0 + (n - 1)) n) as Hmod. nia.
Qed.

Lemma range_starts_inside (len n i : nat) :
  0 < n -> In i (Py.range 0 len n) -> i < len.
Proof.
  intros Hn Hin. unfold Py.range in Hin.
  apply in_map_iff in Hin as (k & <- & Hk). apply in_seq in Hk.
  pose proof (Nat.div_mod_eq (len - 0 + (n - 1)) n) as Hdiv.
  pose proof (Nat.mod_upper_bound (len - 0 + (n - 1)) n) as Hmod. nia.
Qed.

Lemma concat_batches_of (track_ids : list Py.value) :
  concat (batches_of track_ids) = track_ids.
Proof.
  unfold batches_of, Py.range. rewrite concat_slices.
  apply firstn_all2. apply range_covers. lia.
Qed.

Lemma batches_of_sizes (track_ids : list Py.value) :
  Forall (fun batch => 1 <= length batch <= 100) (batches_of track_ids).
Proof.
  apply Forall_forall. intros batch Hin. unfold batches_of in Hin.
  apply in_map_iff in Hin as (i & <- & Hi).
  apply range_starts_inside in Hi; [|lia].
  rewrite slice_step, length_firstn, length_skipn. lia.
Qed.

Lemma batches_of_250 (track_ids : list Py.value) :
  length track_ids = 250 ->
  map (@length Py.value) (batches_of track_ids) = [100; 100; 50].
Proof.
  intros Hlen. unfold batches_of. rewrite Hlen.
  change (Py.range 0 250 100) with [0; 100; 200].
  cbn [map]. rewrite !slice_step, !length_firstn, !length_skipn, Hlen.
  reflexivity.
Qed.

Lemma get_audio_features_loop_answered (sp : Spotify)
    (track_ids : list Py.value) (starts : list nat) :
  forall acc log answers,
    answered sp log
      (map (fun i => Py.slice track_ids i (i + 100)) starts) answers ->
    get_audio_features_loop sp track_ids starts acc log
    = (Ok (acc ++ concat answers),
       log ++ map GetAudioFeatures
                (map (fun i => Py.slice track_ids i (i + 100)) starts)).
Proof.
  induction starts as [|i starts IH]; intros acc log answers H;
    inversion H; subst; cbn [get_audio_features_loop map concat].
  - unfold cret. now rewrite !app_nil_r.
  - unfold cbind at 1. unfold sp_audio_features.
    match goal with Hans : audio_features _ _ _ = _ |- _ => rewrite Hans end.
    unfold cbind at 1. unfold lift. cbn [Py.iter].
    rewrite (IH _ _ _ ltac:(eassumption)).
    now rewrite <- !app_assoc.
Qed.

Lemma answered_pointwise (sp : Spotify) (f : Py.value -> Py.value) :
  (forall log batch, audio_features sp log batch = Ok (Py.List (map f batch))) ->
  forall batches log, answered sp log batches (map (map f) batches).
Proof.
  intros Hf. induction batches as [|batch batches IH]; intros log; simpl.
  - constructor.
  - constructor; [apply Hf | apply IH].
Qed.

Lemma answered_lengths (sp : Spotify) log batches answers :
  answered sp log batches answers ->
  Forall2 (fun batch answer => length answer = length batch) batches answers ->
  length (concat answers) = length (concat batches).
Proof.
  intros _. induction 1 as [|b a bs as_ Hba _ IH]; simpl; [reflexivity|].
  now rewrite !length_app, Hba, IH.
Qed.

(** C3. [get_audio_features] cuts the identifiers into consecutive
    batches of at least 1 and at most 100, which together are the input;
    it sends one request per batch, in order, and returns the answers
    joined in that order.  With a service that answers each identifier in
    place (a null where it knows none), the result is the input mapped
    position by position.  For 250 identifiers the batches have sizes
    100, 100 and 50, three requests are sent, and with one answer per
    identifier the result has 250 elements. *)
Theorem get_audio_features_spec (sp : Spotify) (track_ids : list Py.value)
    (log : list request) :
  concat (batches_of track_ids) = track_ids /\
  Forall (fun batch => 1 <= length batch <= 100) (batches_of track_ids) /\
  (forall answers,
      answered sp log (batches_of track_ids) answers ->
      get_audio_features sp track_ids log
      = (Ok (concat answers),
         log ++ map GetAudioFeatures (batches_of track_ids))) /\
  (forall f,
      (forall log' batch,
          audio_features sp log' batch = Ok (Py.List (map f batch))) ->
      get_audio_features sp track_ids log
      = (Ok (map f track_ids),
         log ++ map GetAudioFeatures (batches_of track_ids))) /\
  (length track_ids = 250 ->
   map (@length Py.value) (batches_of track_ids) = [100; 100; 50] /\
   forall answers,
     answered sp log (batches_of track_ids) answers ->
     Forall2 (fun batch answer => length answer = length batch)
             (batches_of track_ids) answers ->
     exists out log',
       get_audio_features sp track_ids log = (Ok out, log') /\
       length out = 250 /\
       length log' = length log + 3).
Proof.
  assert (Hrun : forall answers,
             answered sp log (batches_of track_ids) answers ->
             get_audio_features sp track_ids log
             = (Ok (concat answers),
                log ++ map GetAudioFeatures (batches_of track_ids))).
  { intros answers H. unfold get_audio_features.
    now rewrite (get_audio_features_loop_answered _ _ _ _ _ _ H). }
  split; [apply concat_batches_of|].
  split; [apply batches_of_sizes|].
  split; [exact Hrun|]. split.
  - intros f Hf.
    rewrite (Hrun _ (answered_pointwise sp f Hf _ log)).
    now rewrite <- concat_map, concat_batches_of.
  - intros Hlen. pose proof (batches_of_250 _ Hlen) as Hsizes.
    split; [exact Hsizes|].
    intros answers Hans Hsame. eexists _, _. split; [apply (Hrun _ Hans)|].
    split.
    + now rewrite (answered_lengths _ _ _ _ Hans Hsame), concat_batches_of.
    + rewrite length_app, !length_map.
      now rewrite <- (length_map (@length Py.value)), Hsizes.
Qed.

Lemma get_audio_features_spec_witness :
  get_audio_features Sample.service Sample.ids []
  = (Ok (map Sample.lookup Sample.ids),
     [] ++ map GetAudioFeatures (batches_of Sample.ids)) /\
  map (@length Py.value) (batches_of Sample.ids) = [100; 100; 50].
Proof.
  destruct (get_audio_features_spec Sample.service Sample.ids [])
    as (_ & _ & _ & Hmap & H250).
  split.
  - apply Hmap. intros log' batch. reflexivity.
  - apply H250. reflexivity.
Defined.

(** ** Lookup by name and artist *)

(** C6. When the names and the artists differ in number, or time points
    are given (a non-empty [time_points]) and differ in number from the
    names, [get_tracks_by_names_and_artists] raises [ValueError] and the
    log of requests is what it was: nothing was sent. *)
Theorem get_tracks_by_names_and_artists_invalid (sp : Spotify)
    (track_names artist_names : list string) (time_points : time_points_arg)
    (log : list request) :
  length track_names <> length artist_names \/
  (0 < len_time_points time_points /\
   len_time_points time_points <> length track_names) ->
  get_tracks_by_names_and_artists sp track_names artist_names time_points log
  = (Raise ValueError, log).
Proof.
  intros H. unfold get_tracks_by_names_and_artists.
  destruct (Nat.eqb_spec (length track_names) (length artist_names))
    as [Heq|Hne]; [|reflexivity].
  destruct H as [H|[Hpos Hlen]]; [contradiction|]. cbn [negb].
  apply Nat.ltb_lt in Hpos. rewrite Hpos.
  destruct (Nat.eqb_spec (length track_names) (len_time_points time_points))
    as [Heq'|Hne']; [congruence | reflexivity].
Qed.

Lemma get_tracks_by_names_and_artists_invalid_witness :
  get_tracks_by_names_and_artists Sample.service
    ["Something"; "Come Together"] ["The Beatles"] (PyList []) []
  = (Raise ValueError, []) /\
  get_tracks_by_names_and_artists Sample.service
    ["Something"] ["The Beatles"]
    (Series [Py.Str "2024-09-01"; Py.Str "2024-09-02"]) []
  = (Raise ValueError, []).
Proof.
  split; apply get_tracks_by_names_and_artists_invalid.
  - left. simpl. lia.
  - right. simpl. lia.
Defined.

Lemma best_match_inv (results : Py.value) (m : option Py.value) :
  best_match results = Ok m ->
  exists found track_items,
    Py.get results "tracks" (Py.Dict []) = Ok found /\
    Py.get found "items" (Py.List []) = Ok track_items /\
    ((Py.truthy track_items = false /\ m = None) \/
     (Py.truthy track_items = true /\
      exists track,
        Py.getitem track_items (Py.Int 0) = Ok track /\ m = Some track)).
Proof.
  unfold best_match. intros H.
  destruct (Py.get results "tracks" (Py.Dict [])) as [found|e];
    cbn [rbind] in H; [|discriminate].
  destruct (Py.get found "items" (Py.List [])) as [items|e] eqn:Hitems;
    cbn [rbind] in H; [|discriminate].
  exists found, items. split; [reflexivity|]. split; [exact Hitems|].
  destruct (Py.truthy items).
  - right. split; [reflexivity|].
    destruct (Py.getitem items (Py.Int 0)) as [track|e];
      cbn [rbind] in H; [|discriminate].
    exists track. split; [reflexivity|]. congruence.
  - left. split; [reflexivity|]. congruence.
Qed.

(** One turn of the loop for a search without match. *)
Lemma search_loop_miss sp time_points i pair pairs tracks log results :
  search sp log (query_of (fst pair) (snd pair)) "track" 1 = Ok results ->
  best_match results = Ok None ->
  search_loop sp time_points i (pair :: pairs) tracks log
  = search_loop sp time_points (S i) pairs tracks
      (log ++ [search_request pair]).
Proof.
  intros Hs Hm. destruct pair as [track_name artist_name].
  apply best_match_inv in Hm
    as (found & items & Hf & Hi & [(Ht & _) | (_ & t & _ & Habs)]);
    [|discriminate].
  cbn [search_loop]. unfold cbind at 1. unfold sp_search at 1.
  cbn [fst snd] in Hs. rewrite Hs.
  unfold cbind at 1. unfold lift at 1. rewrite Hf.
  unfold cbind at 1. unfold lift at 1. rewrite Hi, Ht. reflexivity.
Qed.

(** One turn of the loop for a search with a match: the time point is
    read first, and its exception, if any, ends the loop. *)
Lemma search_loop_hit sp time_points i pair pairs tracks log results track :
  search sp log (query_of (fst pair) (snd pair)) "track" 1 = Ok results ->
  best_match results = Ok (Some track) ->
  search_loop sp time_points i (pair :: pairs) tracks log
  = match (if (0 <? len_time_points time_points)%nat
           then iloc time_points i else Ok Py.None_) with
    | Ok added_at =>
        search_loop sp time_points (S i) pairs
          (tracks ++ [Py.Dict [("added_at", added_at); ("track", track)]])
          (log ++ [search_request pair])
    | Raise e => (Raise e, log ++ [search_request pair])
    end.
Proof.
  intros Hs Hm. destruct pair as [track_name artist_name].
  apply best_match_inv in Hm
    as (found & items & Hf & Hi & [(_ & Habs) | (Ht & t & Hitem & Heq)]);
    [discriminate|].
  inversion Heq; subst t; clear Heq.
  cbn [search_loop]. unfold cbind at 1. unfold sp_search at 1.
  cbn [fst snd] in Hs. rewrite Hs.
  unfold cbind at 1. unfold lift at 1. rewrite Hf.
  unfold cbind at 1. unfold lift at 1. rewrite Hi, Ht.
  unfold cbind at 1. unfold lift at 1.
  destruct (if (0 <? len_time_points time_points)%nat
            then iloc time_points i else Ok Py.None_) as [added_at|e];
    [|reflexivity].
  unfold cbind at 1. unfold lift at 1. rewrite Hitem. reflexivity.
Qed.

Lemma index_of_nat {A : Type} (l : list A) (i : nat) (d : A) :
  i < length l -> Py.index l (Z.of_nat i) = Ok (nth i l d).
Proof.
  intros Hi. unfold Py.index.
  destruct (Z.ltb_spec (Z.of_nat i) 0) as [Hneg|_]; [lia|].
  destruct (Z.leb_spec 0 (Z.of_nat i)) as [_|Hneg]; [|lia].
  destruct (Z.ltb_spec (Z.of_nat i) (Z.of_nat (length l))) as [_|Hge]; [|lia].
  cbn [andb]. rewrite Nat2Z.id.
  now rewrite (nth_error_nth' l d Hi).
Qed.

Lemma read_stamp (time_points : time_points_arg) (i bound : nat) :
  readable time_points bound -> i < bound ->
  (if (0 <? len_time_points time_points)%nat
   then iloc time_points i else Ok Py.None_) = Ok (stamp time_points i).
Proof.
  intros [Hnone | (l & -> & Hbound)] Hi.
  - rewrite Hnone. cbn [Nat.ltb Nat.leb].
    destruct time_points as [l|l]; [reflexivity|].
    destruct l; [|discriminate]. now destruct i.
  - cbn [len_time_points iloc stamp].
    destruct (Nat.ltb_spec 0 (length l)) as [_|Hempty]; [|lia].
    apply index_of_nat. lia.
Qed.

Lemma matched_length sp log pairs matches :
  matched sp log pairs matches -> length matches = length pairs.
Proof. induction 1; simpl; congruence. Qed.

Lemma kept_length (time_points : time_points_arg)
    (matches : list (option Py.value)) :
  forall i,
    length (kept time_points i matches)
    = length (filter (fun m => match m with Some _ => true | None => false end)
                     matches).
Proof.
  induction matches as [|[track|] rest IH]; intros i; simpl;
    now rewrite ?IH.
Qed.

Lemma kept_entries (time_points : time_points_arg)
    (matches : list (option Py.value)) :
  forall i,
    Forall (fun entry => exists added_at track,
                In (Some track) matches /\
                entry = Py.Dict [("added_at", added_at); ("track", track)])
           (kept time_points i matches).
Proof.
  induction matches as [|[track|] rest IH]; intros i; simpl.
  - constructor.
  - constructor.
    + exists (stamp time_points i), track. auto.
    + eapply Forall_impl; [|apply IH].
      intros entry (a & t & Hin & ->). exists a, t. auto.
  - eapply Forall_impl; [|apply IH].
    intros entry (a & t & Hin & ->). exists a, t. auto.
Qed.

Lemma search_loop_matched sp time_points log pairs matches :
  matched sp log pairs matches ->
  forall i tracks,
    readable time_points (i + length pairs) ->
    search_loop sp time_points i pairs tracks log
    = (Ok (tracks ++ kept time_points i matches),
       log ++ map search_request pairs).
Proof.
  induction 1 as [log|log pair pairs results m matches Hs Hm _ IH];
    intros i tracks Hread.
  - cbn. unfold cret. now rewrite !app_nil_r.
  - assert (Hnext : readable time_points (S i + length pairs)).
    { destruct Hread as [Hnone | (l & Hl & Hbound)]; [now left|].
      right. exists l. split; [exact Hl|]. simpl in Hbound. lia. }
    destruct m as [track|].
    + rewrite (search_loop_hit _ _ _ _ _ _ _ _ _ Hs Hm).
      rewrite (read_stamp _ i _ Hread) by (simpl; lia).
      rewrite (IH _ _ Hnext). cbn [kept map].
      now rewrite <- !app_assoc.
    + rewrite (search_loop_miss _ _ _ _ _ _ _ _ Hs Hm).
      rewrite (IH _ _ Hnext). cbn [kept map].
      now rewrite <- !app_assoc.
Qed.

(** C7. For as many names as artists, with no time points or a [Series]
    of one per name, and a service that answers every search:
    [get_tracks_by_names_and_artists] sends one search with limit 1 per
    index, in order, and returns one entry per index whose search found a
    track, in input order, with nothing in the place of a search without
    match; so it returns as many entries as matches were found, at most
    one per name, each a dict holding the matched track. *)
Theorem get_tracks_by_names_and_artists_spec (sp : Spotify)
    (track_names artist_names : list string) (time_points : time_points_arg)
    (log : list request) (matches : list (option Py.value)) :
  length track_names = length artist_names ->
  (len_time_points time_points = 0 \/
   exists l, time_points = Series l /\ length l = length track_names) ->
  matched sp log (combine track_names artist_names) matches ->
  get_tracks_by_names_and_artists sp track_names artist_names time_points log
  = (Ok (kept time_points 0 matches),
     log ++ map search_request (combine track_names artist_names)) /\
  length (kept time_points 0 matches)
  = length (filter (fun m => match m with Some _ => true | None => false end)
                   matches) /\
  length (kept time_points 0 matches) <= length track_names /\
  Forall (fun entry => exists added_at track,
              In (Some track) matches /\
              entry = Py.Dict [("added_at", added_at); ("track", track)])
         (kept time_points 0 matches).
Proof.
  intros Hlen Htime Hmatched.
  assert (Hpairs : length (combine track_names artist_names)
                   = length track_names).
  { rewrite length_combine. lia. }
  split; [|split; [|split]].
  - unfold get_tracks_by_names_and_artists.
    rewrite Hlen, Nat.eqb_refl. cbn [negb].
    replace ((0 <? len_time_points time_points)%nat
             && negb (length artist_names =? len_time_points time_points)%nat)
      with false.
    + change (Ok (kept time_points 0 matches))
        with (Ok ([] ++ kept time_points 0 matches)).
      apply search_loop_matched; [exact Hmatched|].
      rewrite Hpairs. destruct Htime as [Hnone | (l & Hl & Hsame)].
      * now left.
      * right. exists l. split; [exact Hl|]. simpl. lia.
    + destruct Htime as [Hnone | (l & -> & Hsame)].
      * now rewrite Hnone.
      * cbn [len_time_points]. rewrite <- Hlen, <- Hsame, Nat.eqb_refl.
        now rewrite andb_false_r.
  - apply kept_length.
  - rewrite kept_length.
    rewrite <- Hpairs, <- (matched_length _ _ _ _ Hmatched).
    apply filter_length_le.
  - apply kept_entries.
Qed.

Lemma get_tracks_by_names_and_artists_spec_witness :
  get_tracks_by_names_and_artists Sample.service
    ["Come Together"; "Something"] ["The Beatles"; "The Beatles"]
    (Series [Py.Str "2024-09-01"; Py.Str "2024-09-03"]) []
  = (Ok [Sample.entry "2024-09-03"
           (Sample.track "Something" "0pNeVovbiZHkulpGeOx1Gj")],
     [GetSearch "track:Come Together artist:The Beatles" "track" 1;
      GetSearch "track:Something artist:The Beatles" "track" 1]).
Proof.
  apply (get_tracks_by_names_and_artists_spec Sample.service
           ["Come Together"; "Something"] ["The Beatles"; "The Beatles"]
           (Series [Py.Str "2024-09-01"; Py.Str "2024-09-03"]) []
           [None; Some (Sample.track "Something" "0pNeVovbiZHkulpGeOx1Gj")]).
  - reflexivity.
  - right. eexists. split; reflexivity.
  - eapply matched_cons; [reflexivity | reflexivity |].
    eapply matched_cons; [reflexivity | reflexivity |].
    apply matched_nil.
Defined.

Lemma search_loop_list_raises sp (l : list Py.value) log pairs matches :
  matched sp log pairs matches ->
  0 < length l ->
  (exists track, In (Some track) matches) ->
  forall i tracks,
  exists n,
    search_loop sp (PyList l) i pairs tracks log
    = (Raise AttributeError, log ++ map search_request (firstn (S n) pairs)).
Proof.
  intros Hmatched Hl.
  induction Hmatched as [log|log pair pairs results m matches Hs Hm _ IH];
    intros (track & Hin) i tracks.
  - destruct Hin.
  - destruct m as [t|].
    + rewrite (search_loop_hit _ _ _ _ _ _ _ _ _ Hs Hm).
      cbn [len_time_points iloc].
      apply Nat.ltb_lt in Hl. rewrite Hl. exists 0. reflexivity.
    + rewrite (search_loop_miss _ _ _ _ _ _ _ _ Hs Hm).
      destruct (IH ltac:(destruct Hin as [Habs|Hin];
                         [discriminate | now exists track])
                   (S i) tracks) as (n & ->).
      exists (S n). cbn [firstn map]. now rewrite <- app_assoc.
Qed.

(** C10. With as many names as artists, a non-empty plain list of as many
    time points, and a service that answers every search, at least one of
    them with a match, [get_tracks_by_names_and_artists] raises
    [AttributeError] and returns no result: the time point of the first
    match is read through [iloc], which a list does not have.  The
    searches up to that match were sent. *)
Theorem get_tracks_by_names_and_artists_list_raises (sp : Spotify)
    (track_names artist_names : list string) (l : list Py.value)
    (log : list request) (matches : list (option Py.value)) :
  l <> [] ->
  length track_names = length artist_names ->
  length l = length track_names ->
  matched sp log (combine track_names artist_names) matches ->
  (exists track, In (Some track) matches) ->
  exists n,
    get_tracks_by_names_and_artists sp track_names artist_names (PyList l) log
    = (Raise AttributeError,
       log ++ map search_request
                (firstn (S n) (combine track_names artist_names))).
Proof.
  intros Hl Hlen Hsame Hmatched Hfound.
  unfold get_tracks_by_names_and_artists.
  rewrite Hlen, Nat.eqb_refl. cbn [negb len_time_points].
  rewrite <- Hlen, <- Hsame, Nat.eqb_refl, andb_false_r.
  eapply search_loop_list_raises; try eassumption.
  destruct l; [contradiction | simpl; lia].
Qed.

Lemma get_tracks_by_names_and_artists_list_raises_witness :
  exists n,
    get_tracks_by_names_and_artists Sample.service
      ["Come Together"; "Something"] ["The Beatles"; "The Beatles"]
      (PyList [Py.Str "2024-09-01"; Py.Str "2024-09-03"]) []
    = (Raise AttributeError,
       [] ++ map search_request
               (firstn (S n)
                  (combine ["Come Together"; "Something"]
                           ["The Beatles"; "The Beatles"]))).
Proof.
  apply (get_tracks_by_names_and_artists_list_raises Sample.service
           ["Come Together"; "Something"] ["The Beatles"; "The Beatles"]
           [Py.Str "2024-09-01"; Py.Str "2024-09-03"] []
           [None; Some (Sample.track "Something" "0pNeVovbiZHkulpGeOx1Gj")]).
  - discriminate.
  - reflexivity.
  - reflexivity.
  - eapply matched_cons; [reflexivity | reflexivity |].
    eapply matched_cons; [reflexivity | reflexivity |].
    apply matched_nil.
  - eexists. right. left. reflexivity.
Defined.

(** * Further properties *)

(** ** Path expressions *)

Lemma re_split_brackets_not_nil (s : string) : re_split_brackets s <> [].
Proof.
  destruct s as [|c rest]; simpl; [discriminate|].
  destruct (is_bracket c); [discriminate|].
  destruct (re_split_brackets rest); discriminate.
Qed.

Lemma re_split_brackets_app (a : string) (c : ascii) (b : string) :
  is_bracket c = true ->
  re_split_brackets (a ++ String c b)
  = re_split_brackets a ++ re_split_brackets b.
Proof.
  intros Hc. induction a as [|x a IH]; simpl.
  - now rewrite Hc.
  - rewrite IH. destruct (is_bracket x); [reflexivity|].
    pose proof (re_split_brackets_not_nil a) as Hne.
    destruct (re_split_brackets a); [contradiction | reflexivity].
Qed.

Lemma split_by_brackets_app (a : string) (c : ascii) (b : string) :
  is_bracket c = true ->
  split_by_brackets (a ++ String c b)
  = split_by_brackets a ++ split_by_brackets b.
Proof.
  intros Hc. unfold split_by_brackets.
  now rewrite (re_split_brackets_app _ _ _ Hc), filter_app.
Qed.

Lemma split_by_brackets_plain_key (key : string) :
  plain_key key -> split_by_brackets key = [key].
Proof.
  intros [Hne Hplain]. unfold split_by_brackets.
  rewrite (re_split_brackets_plain _ Hplain). simpl.
  apply nonempty_true in Hne. now rewrite Hne.
Qed.

(** X1. A bracket of either kind separates: the keys of a path
    expression cut at a bracket are the keys of the text before it
    followed by the keys of the text after it, so text outside brackets
    yields keys like text inside them. *)
Theorem split_by_brackets_at_bracket (a b : string) :
  split_by_brackets (a ++ "[" ++ b)
  = split_by_brackets a ++ split_by_brackets b /\
  split_by_brackets (a ++ "]" ++ b)
  = split_by_brackets a ++ split_by_brackets b.
Proof.
  split; apply split_by_brackets_app; reflexivity.
Qed.

(** X2. Parsing inverts the bracket notation: for keys that are
    non-empty and free of brackets, the path expression that writes each
    key between brackets is split back into exactly those keys. *)
Theorem split_by_brackets_bracketed (keys : list string) :
  Forall plain_key keys -> split_by_brackets (bracketed keys) = keys.
Proof.
  induction 1 as [|key keys Hkey _ IH]; [reflexivity|].
  cbn [bracketed].
  change ("[" ++ key ++ "]" ++ bracketed keys)%string
    with ("" ++ String "["%char (key ++ String "]"%char (bracketed keys)))%string.
  rewrite (split_by_brackets_app "" "["%char) by reflexivity.
  rewrite (split_by_brackets_app key "]"%char) by reflexivity.
  now rewrite (split_by_brackets_plain_key _ Hkey), IH.
Qed.

Lemma split_by_brackets_bracketed_witness :
  split_by_brackets (bracketed ["track"; "album"; "album_type"])
  = ["track"; "album"; "album_type"].
Proof.
  apply split_by_brackets_bracketed.
  repeat constructor; discriminate.
Defined.

Lemma split_by_brackets_keyless (s : string) :
  strip_brackets s = "" -> split_by_brackets s = [].
Proof.
  induction s as [|c rest IH]; simpl; [reflexivity|].
  unfold split_by_brackets. simpl.
  destruct (is_bracket c); [|discriminate].
  intros H. simpl. exact (IH H).
Qed.

(** X3. A path expression that holds no key (the empty string, or
    brackets only) does not fail: [get_track_info] answers it with the
    whole record. *)
Theorem get_track_info_keyless (track : Py.value) (s : string) :
  strip_brackets s = "" -> get_track_info track [s] = Ok [track].
Proof.
  intros H. unfold get_track_info. cbn [rmap].
  now rewrite (split_by_brackets_keyless _ H).
Qed.

Lemma get_track_info_keyless_witness :
  get_track_info Sample.come_together ["[][]"] = Ok [Sample.come_together].
Proof. apply get_track_info_keyless. reflexivity. Defined.

Lemma rmap_first_failure {A B : Type} (f : A -> result B)
    (pre : list A) (ys : list B) (x : A) (post : list A) (e : exn) :
  Forall2 (fun x y => f x = Ok y) pre ys ->
  f x = Raise e ->
  rmap f (pre ++ x :: post) = Raise e.
Proof.
  intros Hpre Hx. induction Hpre as [|x' y pre ys Hx' _ IH]; simpl.
  - now rewrite Hx.
  - now rewrite Hx', IH.
Qed.

(** X4. [get_track_info] returns a list exactly when every path
    resolves, and then the list holds one value per path, in path order:
    the value [get_nested_value] finds along the keys of that path. *)
Theorem get_track_info_values (track : Py.value) (paths : list string)
    (values : list Py.value) :
  get_track_info track paths = Ok values <->
  Forall2 (fun path value =>
             get_nested_value track (map Py.Str (split_by_brackets path))
             = Ok value)
          paths values.
Proof. apply rmap_Forall2. Qed.

(** X5. [get_track_info] yields no partial result: when the paths before
    some path resolve and that path raises, the call raises the same
    exception, whatever paths follow. *)
Theorem get_track_info_first_failure (track : Py.value)
    (pre : list string) (values : list Py.value) (path : string)
    (post : list string) (e : exn) :
  get_track_info track pre = Ok values ->
  get_nested_value track (map Py.Str (split_by_brackets path)) = Raise e ->
  get_track_info track (pre ++ path :: post) = Raise e.
Proof.
  intros Hpre Hpath. apply rmap_Forall2 in Hpre.
  exact (rmap_first_failure _ _ _ _ _ _ Hpre Hpath).
Qed.

Lemma get_track_info_first_failure_witness :
  get_track_info Sample.come_together
    (["[track][name]"] ++ "[track][artists][0][name]" :: ["[added_at]"])
  = Raise TypeError.
Proof.
  eapply get_track_info_first_failure; reflexivity.
Defined.

Lemma getitem_str_error (v : Py.value) (k : string) (e : exn) :
  v.[k] = Raise e -> e = KeyError \/ e = TypeError.
Proof.
  destruct v; simpl; try solve [intros H; inversion H; auto].
  destruct (Py.assoc k d); intros H; inversion H; auto.
Qed.

Lemma get_nested_value_str_error (root : Py.value) (keys : list string)
    (e : exn) :
  get_nested_value root (map Py.Str keys) = Raise e ->
  e = KeyError \/ e = TypeError.
Proof.
  revert root. induction keys as [|k keys IH]; intros root; simpl.
  - discriminate.
  - destruct (root.[k]) as [w|e'] eqn:Hk; cbn [rbind].
    + apply IH.
    + intros H. inversion H; subst. exact (getitem_str_error _ _ _ Hk).
Qed.

Lemma rmap_error {A B : Type} (f : A -> result B) (P : exn -> Prop)
    (l : list A) (e : exn) :
  (forall x e', f x = Raise e' -> P e') ->
  rmap f l = Raise e -> P e.
Proof.
  intros Hf. induction l as [|x l IH]; simpl; [discriminate|].
  destruct (f x) as [y|e'] eqn:Hx; cbn [rbind].
  - destruct (rmap f l) as [ys|e'']; cbn [rbind].
    + discriminate.
    + intros H. inversion H; subst. now apply IH.
  - intros H. inversion H; subst. exact (Hf _ _ Hx).
Qed.

(** X6. Whatever the record and the paths, the only exceptions
    [get_track_info] raises are [KeyError] (a key is missing) and
    [TypeError] (something other than a dict is subscripted): a path,
    whose keys are strings, never indexes a list by position. *)
Theorem get_track_info_errors (track : Py.value) (paths : list string)
    (e : exn) :
  get_track_info track paths = Raise e -> e = KeyError \/ e = TypeError.
Proof.
  unfold get_track_info.
  apply (rmap_error _ (fun e => e = KeyError \/ e = TypeError)).
  intros path e'. apply get_nested_value_str_error.
Qed.

Lemma get_track_info_errors_witness :
  TypeError = KeyError \/ TypeError = TypeError.
Proof.
  apply (get_track_info_errors Sample.come_together
           ["[track][artists][0][name]"]).
  reflexivity.
Defined.

(** ** Track identifiers, continued *)

Lemma extract_track_ids_app (sp : Spotify) (a b : list Py.value) :
  extract_track_ids sp (a ++ b)
  = (ids <- extract_track_ids sp a ;;
     more <- extract_track_ids sp b ;;
     Ok (ids ++ more)).
Proof.
  induction a as [|item a IH]; cbn [app extract_track_ids].
  - cbn [rbind]. now destruct (extract_track_ids sp b).
  - destruct (item.["track"]) as [track|e]; cbn [rbind]; [|reflexivity].
    destruct (Py.truthy track); [|exact IH].
    destruct (track.["id"]) as [id|e]; cbn [rbind]; [|reflexivity].
    rewrite IH.
    destruct (extract_track_ids sp a); cbn [rbind]; [|reflexivity].
    now destruct (extract_track_ids sp b).
Qed.

(** X7. The identifiers of two lists of entries put one after the other
    are the identifiers of the first followed by those of the second,
    whenever both lists can be read. *)
Theorem extract_track_ids_concat (sp : Spotify) (a b ids more : list Py.value) :
  extract_track_ids sp a = Ok ids ->
  extract_track_ids sp b = Ok more ->
  extract_track_ids sp (a ++ b) = Ok (ids ++ more).
Proof.
  intros Ha Hb. now rewrite extract_track_ids_app, Ha, Hb.
Qed.

Lemma extract_track_ids_concat_witness :
  extract_track_ids Sample.service
    ([Sample.come_together; Sample.removed] ++ [Sample.something])
  = Ok ([Py.Str "2EqlS6tkEnglzr7tkKAAYD"] ++ [Py.Str "0pNeVovbiZHkulpGeOx1Gj"]).
Proof. apply extract_track_ids_concat; reflexivity. Defined.

(** X8. An entry that cannot be read stops [extract_track_ids]: after
    entries that are read without error, an entry dict without a [track]
    key, or with a track dict without an [id] key, raises [KeyError], and
    an entry that is null raises [TypeError]; the identifiers read so far
    are not returned. *)
Theorem extract_track_ids_malformed (sp : Spotify)
    (before : list Py.value) (ids : list Py.value) (after : list Py.value) :
  extract_track_ids sp before = Ok ids ->
  (forall d, Py.assoc "track" d = None ->
             extract_track_ids sp (before ++ Py.Dict d :: after)
             = Raise KeyError) /\
  (forall d t kv, Py.assoc "track" d = Some (Py.Dict (kv :: t)) ->
                  Py.assoc "id" (kv :: t) = None ->
                  extract_track_ids sp (before ++ Py.Dict d :: after)
                  = Raise KeyError) /\
  extract_track_ids sp (before ++ Py.None_ :: after) = Raise TypeError.
Proof.
  intros Hbefore. repeat split; intros; rewrite extract_track_ids_app, Hbefore;
    cbn [rbind extract_track_ids Py.getitem].
  - now rewrite H.
  - rewrite H. cbn [rbind Py.truthy Py.getitem]. now rewrite H0.
  - reflexivity.
Qed.

Lemma extract_track_ids_malformed_witness :
  extract_track_ids Sample.service
    ([Sample.come_together] ++ Py.Dict [("added_at", Py.None_)] :: [])
  = Raise KeyError.
Proof.
  apply (extract_track_ids_malformed Sample.service [Sample.come_together]
           [Py.Str "2EqlS6tkEnglzr7tkKAAYD"] []); reflexivity.
Defined.

(** X9. [extract_track_ids] skips more than null tracks: an entry whose
    track is any value that counts as false (an empty dict, an empty
    string, zero) contributes no identifier and raises nothing, and the
    number of identifiers returned is the number of entries whose track
    counts as true. *)
Theorem extract_track_ids_count (sp : Spotify) (tracks ids : list Py.value) :
  extract_track_ids sp tracks = Ok ids ->
  length ids
  = length (filter (fun item =>
                      match item.["track"] with
                      | Ok track => Py.truthy track
                      | Raise _ => false
                      end) tracks).
Proof.
  revert ids. induction tracks as [|item tracks IH]; intros ids;
    cbn [extract_track_ids filter].
  - intros H. now inversion H.
  - destruct (item.["track"]) as [track|e]; cbn [rbind]; [|discriminate].
    destruct (Py.truthy track); [|apply IH].
    destruct (track.["id"]) as [id|e]; cbn [rbind]; [|discriminate].
    destruct (extract_track_ids sp tracks) as [ids'|e]; cbn [rbind];
      [|discriminate].
    intros H. inversion H; subst. simpl. now rewrite (IH ids').
Qed.

Lemma extract_track_ids_count_witness :
  length [Py.Str "0pNeVovbiZHkulpGeOx1Gj"] = 1.
Proof.
  apply (extract_track_ids_count Sample.service
           [Sample.entry "2024-09-01" (Py.Dict []); Sample.something]).
  reflexivity.
Defined.

(** ** Flattening, continued *)

Lemma combine_surplus_l {A B : Type} (l surplus : list A) (r : list B) :
  length r <= length l -> combine (l ++ surplus) r = combine l r.
Proof.
  revert r. induction l as [|x l IH]; intros [|y r] H; simpl in *;
    try reflexivity; try lia.
  - now destruct surplus.
  - now rewrite IH by lia.
Qed.

Lemma combine_surplus_r {A B : Type} (l : list A) (r surplus : list B) :
  length l <= length r -> combine l (r ++ surplus) = combine l r.
Proof.
  revert r. induction l as [|x l IH]; intros [|y r] H; simpl in *;
    try reflexivity; try lia.
  now rewrite IH by lia.
Qed.

(** X10. Entries and features are paired by position up to the shorter of
    the two sequences: entries beyond the last feature vector, and
    feature vectors beyond the last entry, are ignored without any
    error, whatever they are. *)
Theorem merge_ignores_surplus (tracks audio_features : list Py.value)
    (surplus : list Py.value) (playlist_name : Py.value)
    (extra : list string) :
  length tracks = length audio_features ->
  merge_track_details_and_features (tracks ++ surplus) audio_features
    playlist_name extra
  = merge_track_details_and_features tracks audio_features playlist_name extra
  /\
  merge_track_details_and_features tracks (audio_features ++ surplus)
    playlist_name extra
  = merge_track_details_and_features tracks audio_features playlist_name extra.
Proof.
  intros Hlen. unfold merge_track_details_and_features.
  rewrite combine_surplus_l, combine_surplus_r by lia. split; reflexivity.
Qed.

Lemma merge_ignores_surplus_witness :
  merge_track_details_and_features
    ([Sample.come_together] ++ [Py.Int 7; Py.None_]) [Sample.features]
    (Py.Str "liked") []
  = merge_track_details_and_features
      [Sample.come_together] [Sample.features] (Py.Str "liked") [].
Proof.
  apply (merge_ignores_surplus [Sample.come_together] [Sample.features]).
  reflexivity.
Defined.

Lemma merge_ok_inv tracks audio_features playlist_name extra df :
  merge_track_details_and_features tracks audio_features playlist_name extra
  = Ok df ->
  exists data,
    track_list (combine tracks audio_features) playlist_name extra = Ok data /\
    df = Pandas.mkDataFrame (column_names ++ extra) (Pandas.cells data).
Proof.
  intros H.
  destruct (track_list (combine tracks audio_features) playlist_name extra)
    as [data|e] eqn:Hdata.
  - rewrite (merge_of_track_list _ _ _ _ _ Hdata) in H.
    inversion H; subst. exists data. split; reflexivity.
  - unfold merge_track_details_and_features in H. rewrite Hdata in H.
    discriminate.
Qed.

Lemma track_list_count pairs playlist_name extra data :
  track_list pairs playlist_name extra = Ok data ->
  length data
  = length (filter (fun pair => Py.truthy (fst pair) && Py.truthy (snd pair))
                   pairs).
Proof.
  revert data. induction pairs as [|[item features] pairs IH]; intros data;
    cbn [track_list filter fst snd].
  - intros H. now inversion H.
  - destruct (Py.truthy item), (Py.truthy features); cbn [negb orb andb];
      try apply IH.
    destruct (track_row item features playlist_name extra); cbn [rbind];
      [|discriminate].
    destruct (track_list pairs playlist_name extra) as [more|e];
      cbn [rbind]; [|discriminate].
    intros H. inversion H; subst. simpl. now rewrite (IH more).
Qed.

(** X11. A table that is returned has exactly one row per pair in which
    neither the entry nor the feature vector counts as false, hence at
    most as many rows as there are entries and as there are feature
    vectors. *)
Theorem merge_row_count tracks audio_features playlist_name extra df :
  merge_track_details_and_features tracks audio_features playlist_name extra
  = Ok df ->
  length (Pandas.rows df)
  = length (filter (fun pair => Py.truthy (fst pair) && Py.truthy (snd pair))
                   (combine tracks audio_features)) /\
  length (Pandas.rows df) <= length tracks /\
  length (Pandas.rows df) <= length audio_features.
Proof.
  intros H. apply merge_ok_inv in H as (data & Hrows & ->).
  apply track_list_count in Hrows.
  cbn [Pandas.rows]. rewrite cells_length.
  pose proof (filter_length_le
                (fun pair : Py.value * Py.value =>
                   Py.truthy (fst pair) && Py.truthy (snd pair))
                (combine tracks audio_features)) as Hle.
  rewrite length_combine in Hle. repeat split; [exact Hrows | lia | lia].
Qed.

Lemma merge_row_count_witness :
  exists df,
    merge_track_details_and_features
      [Sample.come_together; Sample.something; Py.Dict []]
      [Sample.features; Py.Dict []; Sample.features]
      (Py.Str "liked") [] = Ok df /\
    length (Pandas.rows df) = 1.
Proof.
  eexists. split; [reflexivity|].
  exact (proj1 (merge_row_count
                  [Sample.come_together; Sample.something; Py.Dict []]
                  [Sample.features; Py.Dict []; Sample.features]
                  (Py.Str "liked") [] _ eq_refl)).
Defined.

Lemma track_list_all_skipped pairs playlist_name extra :
  Forall (fun pair => Py.truthy (snd pair) = false) pairs ->
  track_list pairs playlist_name extra = Ok [].
Proof.
  induction 1 as [|[item features] pairs Hf _ IH]; cbn [track_list];
    [reflexivity|].
  cbn [snd] in Hf. rewrite Hf. cbn [negb]. now rewrite orb_true_r.
Qed.

(** X12. When every feature vector is null, or counts as false like an
    empty dict, the result is the empty table with the full header,
    whatever the entries are: no entry is read. *)
Theorem merge_without_features (tracks audio_features : list Py.value)
    (playlist_name : Py.value) (extra : list string) :
  Forall (fun features => Py.truthy features = false) audio_features ->
  merge_track_details_and_features tracks audio_features playlist_name extra
  = Ok (Pandas.mkDataFrame (column_names ++ extra) []).
Proof.
  intros H.
  change (Pandas.mkDataFrame (column_names ++ extra) [])
    with (Pandas.mkDataFrame (column_names ++ extra) (Pandas.cells [])).
  apply merge_of_track_list. apply track_list_all_skipped.
  apply Forall_forall. intros [item features] Hin.
  apply in_combine_r in Hin. rewrite Forall_forall in H. now apply H.
Qed.

Lemma merge_without_features_witness :
  merge_track_details_and_features
    [Py.Int 3; Sample.removed] [Py.None_; Py.Dict []] Py.None_ ["[x]"]
  = Ok (Pandas.mkDataFrame (column_names ++ ["[x]"]) []).
Proof.
  apply merge_without_features. repeat constructor.
Defined.

Lemma index_error {A : Type} (l : list A) (i : Z) (e : exn) :
  Py.index l i = Raise e -> e = IndexError.
Proof.
  unfold Py.index.
  destruct ((0 <=? (if (i <? 0)%Z then (i + Z.of_nat (length l))%Z else i))%Z
            && ((if (i <? 0)%Z then (i + Z.of_nat (length l))%Z else i)
                <? Z.of_nat (length l))%Z).
  - destruct (nth_error l _); intros H; inversion H; reflexivity.
  - intros H. now inversion H.
Qed.

Lemma getitem_error (v key : Py.value) (e : exn) :
  Py.getitem v key = Raise e -> lookup_error e.
Proof.
  unfold lookup_error.
  destruct v; simpl; try solve [intros H; inversion H; auto].
  - destruct key; try solve [intros H; inversion H; auto];
      destruct (Py.index _ _) eqn:Hi; cbn [rbind]; intros H;
      inversion H; subst; apply index_error in Hi; auto.
  - destruct key; try solve [intros H; inversion H; auto];
      intros H; apply index_error in H; auto.
  - destruct key; try solve [intros H; inversion H; auto].
    destruct (Py.assoc s d); intros H; inversion H; auto.
Qed.

Lemma rmap_error_in {A B : Type} (f : A -> result B) (P : exn -> Prop)
    (l : list A) (e : exn) :
  (forall x e', In x l -> f x = Raise e' -> P e') ->
  rmap f l = Raise e -> P e.
Proof.
  induction l as [|x l IH]; intros Hf; simpl; [discriminate|].
  destruct (f x) as [y|e'] eqn:Hx; cbn [rbind].
  - destruct (rmap f l) as [ys|e'']; cbn [rbind]; [discriminate|].
    intros H. inversion H; subst. apply IH; [|reflexivity].
    intros x' e' Hin. apply Hf. now right.
  - intros H. inversion H; subst. apply (Hf x); [now left | exact Hx].
Qed.

Lemma track_details_error item track features playlist_name e :
  track_details item track features playlist_name = Raise e ->
  lookup_error e.
Proof.
  unfold track_details. apply rmap_error_in.
  intros c e' Hin Hc. simpl in Hin.
  repeat (destruct Hin as [<- | Hin];
          [try solve [exact (getitem_error _ _ _ Hc) | discriminate]|]);
    try contradiction.
  - destruct (track.["artists"]) as [artists|e1] eqn:H1; cbn [rbind] in Hc.
    + destruct (Py.getitem artists (Py.Int 0)) as [artist|e2] eqn:H2;
        cbn [rbind] in Hc.
      * exact (getitem_error _ _ _ Hc).
      * inversion Hc; subst. exact (getitem_error _ _ _ H2).
    + inversion Hc; subst. exact (getitem_error _ _ _ H1).
  - destruct (track.["album"]) as [album|e1] eqn:H1; cbn [rbind] in Hc.
    + exact (getitem_error _ _ _ Hc).
    + inversion Hc; subst. exact (getitem_error _ _ _ H1).
Qed.

Lemma track_row_error item features playlist_name extra e :
  track_row item features playlist_name extra = Raise e -> lookup_error e.
Proof.
  unfold track_row.
  destruct (item.["track"]) as [track|e1] eqn:H1; cbn [rbind].
  - destruct (track_details item track features playlist_name)
      as [details|e2] eqn:H2; cbn [rbind].
    + destruct extra as [|path extra]; [discriminate|].
      destruct (get_track_info item (path :: extra)) as [values|e3] eqn:H3;
        cbn [rbind]; [discriminate|].
      intros H. inversion H; subst.
      unfold get_track_info in H3.
      apply (rmap_error _ (fun e => e = KeyError \/ e = TypeError)) in H3.
      * unfold lookup_error. tauto.
      * intros p e'. apply get_nested_value_str_error.
    + intros H. inversion H; subst. exact (track_details_error _ _ _ _ _ H2).
  - intros H. inversion H; subst. exact (getitem_error _ _ _ H1).
Qed.

Lemma track_list_error pairs playlist_name extra e :
  track_list pairs playlist_name extra = Raise e -> lookup_error e.
Proof.
  induction pairs as [|[item features] pairs IH]; cbn [track_list];
    [discriminate|].
  destruct (negb (Py.truthy item) || negb (Py.truthy features)); [exact IH|].
  destruct (track_row item features playlist_name extra) as [row|e1] eqn:H1;
    cbn [rbind].
  - destruct (track_list pairs playlist_name extra) as [more|e2];
      cbn [rbind]; [discriminate|].
    intros H. inversion H; subst. now apply IH.
  - intros H. inversion H; subst. exact (track_row_error _ _ _ _ _ H1).
Qed.

(** X13. Whatever its arguments, [merge_track_details_and_features]
    raises nothing but [KeyError], [TypeError] or [IndexError], each from
    reading a record: building the table from the rows never fails, since
    every row has one value per column name. *)
Theorem merge_errors tracks audio_features playlist_name extra e :
  merge_track_details_and_features tracks audio_features playlist_name extra
  = Raise e ->
  lookup_error e /\
  track_list (combine tracks audio_features) playlist_name extra = Raise e.
Proof.
  intros H.
  destruct (track_list (combine tracks audio_features) playlist_name extra)
    as [data|e'] eqn:Hdata.
  - rewrite (merge_of_track_list _ _ _ _ _ Hdata) in H. discriminate.
  - unfold merge_track_details_and_features in H. rewrite Hdata in H.
    cbn [rbind] in H. inversion H; subst.
    split; [exact (track_list_error _ _ _ _ Hdata) | reflexivity].
Qed.

Lemma merge_errors_witness :
  lookup_error KeyError.
Proof.
  apply (merge_errors [Py.Dict [("added_at", Py.None_)]] [Sample.features]
           Py.None_ [] KeyError).
  reflexivity.
Defined.

Lemma combine_aligned {A B : Type} (l1 l2 : list A) (r1 r2 : list B) :
  length l1 = length r1 ->
  combine (l1 ++ l2) (r1 ++ r2) = combine l1 r1 ++ combine l2 r2.
Proof.
  revert r1. induction l1 as [|x l1 IH]; intros [|y r1] H; simpl in *;
    try reflexivity; try discriminate.
  rewrite IH; [reflexivity | lia].
Qed.

(** X14. Flattening composes: for two aligned batches of entries and
    features that each flatten to a table under the same label and extra
    paths, flattening the batches put one after the other returns a
    table with the same header, built from the value lists of the first
    table followed by those of the second.  (pandas converts each column
    of the joined table as a whole, so the stored cells may differ from
    those of the two tables.) *)
Theorem merge_concat (tracks1 features1 tracks2 features2 : list Py.value)
    (playlist_name : Py.value) (extra : list string)
    (df1 df2 : Pandas.DataFrame) :
  length tracks1 = length features1 ->
  merge_track_details_and_features tracks1 features1 playlist_name extra
  = Ok df1 ->
  merge_track_details_and_features tracks2 features2 playlist_name extra
  = Ok df2 ->
  exists df,
    merge_track_details_and_features (tracks1 ++ tracks2)
      (features1 ++ features2) playlist_name extra
    = Ok df /\
    Pandas.columns df = column_names ++ extra /\
    map (map Pandas.raw) (Pandas.rows df)
    = map (map Pandas.raw) (Pandas.rows df1)
      ++ map (map Pandas.raw) (Pandas.rows df2).
Proof.
  intros Hlen H1 H2.
  apply merge_ok_inv in H1 as (data1 & H1 & ->).
  apply merge_ok_inv in H2 as (data2 & H2 & ->).
  eexists. split.
  - apply merge_of_track_list.
    now rewrite (combine_aligned _ _ _ _ Hlen), track_list_app, H1, H2.
  - split; [reflexivity|]. cbn [Pandas.rows rbind].
    now rewrite !raw_cells.
Qed.

Lemma merge_concat_witness :
  exists df,
    merge_track_details_and_features
      ([Sample.come_together] ++ [Sample.something])
      ([Sample.features] ++ [Sample.features]) (Py.Str "liked") []
    = Ok df /\
    Pandas.columns df = column_names ++ [] /\
    length (map (map Pandas.raw) (Pandas.rows df)) = 2.
Proof.
  destruct (merge_concat [Sample.come_together] [Sample.features]
              [Sample.something] [Sample.features] (Py.Str "liked") []
              _ _ eq_refl eq_refl eq_refl) as (df & Hdf & Hcols & Hrows).
  exists df. split; [exact Hdf|]. split; [exact Hcols|].
  rewrite Hrows. reflexivity.
Defined.

Lemma track_details_full d track fd playlist_name :
  full_entry (Py.Dict d) -> Py.assoc "track" d = Some track ->
  feature_vector (Py.Dict fd) ->
  exists details,
    track_details (Py.Dict d) track (Py.Dict fd) playlist_name = Ok details.
Proof.
  intros Hitem Htrack Hfeatures.
  pose proof (track_row_returns (Py.Dict d) (Py.Dict fd) playlist_name []
                Hitem Hfeatures (ex_intro _ [] eq_refl)) as (row & Hrow).
  unfold track_row in Hrow. cbn [Py.getitem] in Hrow.
  rewrite Htrack in Hrow. cbn [rbind] in Hrow.
  destruct (track_details (Py.Dict d) track (Py.Dict fd) playlist_name)
    as [details|e]; [now exists details | discriminate].
Qed.

(** X15. A path that does not resolve costs the whole table: when the
    pairs before a complete entry flatten without error and one of the
    extra paths fails on that entry, the call raises the exception of
    that path and no row of any entry is returned. *)
Theorem merge_extra_path_failure
    (before : list (Py.value * Py.value)) (item features : Py.value)
    (tracks audio_features : list Py.value) (playlist_name : Py.value)
    (extra : list string) (e : exn) :
  Forall (flattenable extra) before ->
  full_entry item -> feature_vector features ->
  get_track_info item extra = Raise e ->
  merge_track_details_and_features
    (map fst before ++ item :: tracks)
    (map snd before ++ features :: audio_features)
    playlist_name extra
  = Raise e.
Proof.
  intros Hbefore Hitem Hfeatures Hextra.
  unfold merge_track_details_and_features.
  rewrite combine_after, track_list_app.
  destruct (track_list_returns _ playlist_name extra Hbefore)
    as (data & -> & _).
  cbn [rbind combine track_list].
  rewrite (full_entry_truthy _ Hitem), (feature_vector_truthy _ Hfeatures).
  cbn [negb orb].
  destruct Hitem as (d & track & -> & Hadded & Htrack & Hrecord).
  destruct Hfeatures as (fd & -> & Hkeys).
  destruct (track_details_full d track fd playlist_name
              (ex_intro _ d (ex_intro _ track
                 (conj eq_refl (conj Hadded (conj Htrack Hrecord)))))
              Htrack (ex_intro _ fd (conj eq_refl Hkeys)))
    as (details & Hdetails).
  unfold track_row. cbn [Py.getitem]. rewrite Htrack. cbn [rbind].
  rewrite Hdetails. cbn [rbind].
  destruct extra as [|path extra]; [discriminate|].
  now rewrite Hextra.
Qed.

Lemma sample_full_entry (added_at name id : string) :
  full_entry (Sample.entry added_at (Sample.track name id)).
Proof.
  unfold full_entry, track_record, has_key.
  do 2 eexists. split; [reflexivity|]. split; [eexists; reflexivity|].
  split; [reflexivity|]. do 4 eexists.
  repeat (split; [reflexivity || (eexists; reflexivity)|]).
  eexists; reflexivity.
Defined.

Lemma sample_feature_vector : feature_vector Sample.features.
Proof.
  unfold feature_vector, has_key, feature_keys.
  eexists. split; [reflexivity|].
  repeat (constructor; [eexists; reflexivity|]). constructor.
Defined.

Lemma merge_extra_path_failure_witness :
  merge_track_details_and_features
    [Sample.come_together; Sample.something]
    [Sample.features; Sample.features]
    (Py.Str "liked") ["[track][album][label]"]
  = Raise KeyError.
Proof.
  apply (merge_extra_path_failure [] Sample.come_together Sample.features
           [Sample.something] [Sample.features] (Py.Str "liked")
           ["[track][album][label]"] KeyError).
  - constructor.
  - apply sample_full_entry.
  - apply sample_feature_vector.
  - reflexivity.
Defined.

(** X16. The artist column needs a first artist: when the pairs before
    it flatten without error, an entry whose track has an empty list of
    artists makes the call raise [IndexError], provided its added-at time
    and the track's name and identifier are present and its feature
    vector does not count as false. *)
Theorem merge_no_artist
    (before : list (Py.value * Py.value))
    (d t : list (string * Py.value)) (added_at name id features : Py.value)
    (tracks audio_features : list Py.value) (playlist_name : Py.value)
    (extra : list string) :
  Forall (flattenable extra) before ->
  Py.assoc "added_at" d = Some added_at ->
  Py.assoc "track" d = Some (Py.Dict t) ->
  Py.assoc "name" t = Some name ->
  Py.assoc "id" t = Some id ->
  Py.assoc "artists" t = Some (Py.List []) ->
  Py.truthy features = true ->
  merge_track_details_and_features
    (map fst before ++ Py.Dict d :: tracks)
    (map snd before ++ features :: audio_features)
    playlist_name extra
  = Raise IndexError.
Proof.
  intros Hbefore Hadded Htrack Hname Hid Hartists Hfeatures.
  unfold merge_track_details_and_features.
  rewrite combine_after, track_list_app.
  destruct (track_list_returns _ playlist_name extra Hbefore)
    as (data & -> & _).
  cbn [rbind combine track_list].
  rewrite (truthy_dict_assoc _ _ _ Htrack), Hfeatures. cbn [negb orb].
  unfold track_row. cbn [Py.getitem]. rewrite Htrack. cbn [rbind].
  unfold track_details. cbn [rmap Py.getitem].
  rewrite Hadded, Hname, Hid, Hartists. reflexivity.
Qed.

Lemma merge_no_artist_witness :
  merge_track_details_and_features
    [Sample.entry "2024-09-04"
       (Py.Dict [("name", Py.Str "Untitled"); ("id", Py.None_);
                 ("artists", Py.List [])])]
    [Sample.features] (Py.Str "liked") []
  = Raise IndexError.
Proof.
  eapply (merge_no_artist []); try reflexivity. constructor.
Defined.

(** X17. Header and values go in step for the base columns: in every row
    that is built, the value at the position of a base column is the one
    read at that column's place in the entry or in the feature vector;
    the artist is the name of the first artist of the track. *)
Theorem track_row_base_fields item features playlist_name extra row :
  track_row item features playlist_name extra = Ok row ->
  map fst base_fields = base_columns /\
  Forall2 (fun field value => read_field item features field = Ok value)
          base_fields (firstn 19 row).
Proof.
  intros H. split; [reflexivity|].
  exact (track_row_fields _ _ _ _ _ H).
Qed.

Lemma track_row_base_fields_witness :
  read_field Sample.come_together Sample.features
    ("artist", (FromEntry, [Py.Str "track"; Py.Str "artists"; Py.Int 0;
                            Py.Str "name"]))
  = Ok (Py.Str "The Beatles").
Proof.
  pose proof (proj2 (track_row_base_fields Sample.come_together
                       Sample.features (Py.Str "liked") [] _ eq_refl)) as H.
  cbn [firstn] in H. unfold base_fields in H.
  do 3 (apply Forall2_cons_iff in H as [_ H]).
  apply Forall2_cons_iff in H as [H _]. exact H.
Defined.

(** ** Batched feature lookup, continued *)

Lemma get_audio_features_loop_requests (sp : Spotify)
    (track_ids : list Py.value) (starts : list nat) :
  forall acc log r log',
    get_audio_features_loop sp track_ids starts acc log = (r, log') ->
    exists k,
      k <= length starts /\
      log' = log ++ map GetAudioFeatures
                      (firstn k (map (fun i => Py.slice track_ids i (i + 100))
                                     starts)) /\
      (forall out, r = Ok out -> k = length starts) /\
      (forall e, r = Raise e ->
         exists before i after itemss,
           starts = before ++ i :: after /\
           k = S (length before) /\
           delivered sp log
             (map (fun i => Py.slice track_ids i (i + 100)) before) itemss /\
           fails sp
             (log ++ map GetAudioFeatures
                       (map (fun i => Py.slice track_ids i (i + 100)) before))
             (Py.slice track_ids i (i + 100)) e).
Proof.
  induction starts as [|i starts IH]; intros acc log r log';
    cbn [get_audio_features_loop].
  - unfold cret. intros H. inversion H; subst. exists 0.
    split; [lia|]. split; [now rewrite app_nil_r|].
    split; [reflexivity | discriminate].
  - unfold cbind at 1. unfold sp_audio_features.
    destruct (audio_features sp log (Py.slice track_ids i (i + 100)))
      as [answer|e] eqn:Hanswer.
    + unfold cbind at 1. unfold lift.
      destruct (Py.iter answer) as [items|e] eqn:Hitems.
      * intros H. apply IH in H as (k & Hk & -> & Hok & Hfail). exists (S k).
        split; [simpl; lia|]. split; [|split].
        -- cbn [map firstn]. now rewrite <- app_assoc.
        -- intros out Hout. simpl. now rewrite (Hok out Hout).
        -- intros e He.
           destruct (Hfail e He)
             as (before & i' & after & itemss & -> & -> & Hdel & Hbad).
           exists (i :: before), i', after, (items :: itemss).
           split; [reflexivity|]. split; [reflexivity|]. split.
           ++ cbn [map]. econstructor; eassumption.
           ++ cbn [map]. now rewrite <- app_assoc in Hbad.
      * intros H. inversion H; subst. exists 1.
        split; [simpl; lia|]. split; [reflexivity|].
        split; [discriminate|].
        intros e' He'. inversion He'; subst.
        exists [], i, starts, []. split; [reflexivity|].
        split; [reflexivity|]. split; [constructor|].
        cbn [map]. rewrite app_nil_r. right. now exists answer.
    + intros H. inversion H; subst. exists 1.
      split; [simpl; lia|]. split; [reflexivity|].
      split; [discriminate|].
      intros e' He'. inversion He'; subst.
      exists [], i, starts, []. split; [reflexivity|].
      split; [reflexivity|]. split; [constructor|].
      cbn [map]. rewrite app_nil_r. now left.
Qed.

Lemma batches_of_length (track_ids : list Py.value) :
  length (batches_of track_ids) = (length track_ids + 99) / 100.
Proof.
  unfold batches_of, Py.range. rewrite !length_map, length_seq.
  now rewrite Nat.sub_0_r.
Qed.

(** X18. Whatever the service answers, [get_audio_features] sends only
    batches of the input, in order and without gap, and stops at the
    first request that fails; when it returns a list it has sent every
    batch, that is, the number of identifiers divided by 100 and rounded
    up, so none at all for an empty input.  When it raises, the last
    request it sent is the one that failed, with the exception raised,
    and every request before it was answered with a sequence. *)
Theorem get_audio_features_requests (sp : Spotify)
    (track_ids : list Py.value) (log : list request)
    (r : result (list Py.value)) (log' : list request) :
  get_audio_features sp track_ids log = (r, log') ->
  exists k,
    k <= (length track_ids + 99) / 100 /\
    log' = log ++ map GetAudioFeatures (firstn k (batches_of track_ids)) /\
    (forall out, r = Ok out -> k = (length track_ids + 99) / 100) /\
    (forall e, r = Raise e ->
       exists before batch after itemss,
         batches_of track_ids = before ++ batch :: after /\
         k = S (length before) /\
         delivered sp log before itemss /\
         fails sp (log ++ map GetAudioFeatures before) batch e).
Proof.
  unfold get_audio_features. intros H.
  apply get_audio_features_loop_requests in H
    as (k & Hk & Hlog & Hok & Hfail).
  fold (batches_of track_ids) in Hlog.
  assert (Hn : length (Py.range 0 (length track_ids) 100)
               = (length track_ids + 99) / 100).
  { rewrite <- batches_of_length. unfold batches_of. now rewrite length_map. }
  rewrite Hn in *. exists k. split; [exact Hk|]. split; [exact Hlog|].
  split; [exact Hok|].
  intros e He.
  destruct (Hfail e He)
    as (before & i & after & itemss & Hstarts & Hkb & Hdel & Hbad).
  exists (map (fun i => Py.slice track_ids i (i + 100)) before),
         (Py.slice track_ids i (i + 100)),
         (map (fun i => Py.slice track_ids i (i + 100)) after), itemss.
  split; [|split; [|split]].
  - unfold batches_of. rewrite Hstarts, map_app. reflexivity.
  - now rewrite length_map.
  - exact Hdel.
  - exact Hbad.
Qed.

Lemma get_audio_features_requests_witness :
  exists k,
    k <= (length [Py.Str "2EqlS6tkEnglzr7tkKAAYD"] + 99) / 100 /\
    [GetAudioFeatures [Py.Str "2EqlS6tkEnglzr7tkKAAYD"]]
    = [] ++ map GetAudioFeatures
              (firstn k (batches_of [Py.Str "2EqlS6tkEnglzr7tkKAAYD"])) /\
    (forall out,
        @Raise (list Py.value) TypeError = Ok out ->
        k = (length [Py.Str "2EqlS6tkEnglzr7tkKAAYD"] + 99) / 100) /\
    (forall e,
        @Raise (list Py.value) TypeError = Raise e ->
        exists before batch after itemss,
          batches_of [Py.Str "2EqlS6tkEnglzr7tkKAAYD"]
          = before ++ batch :: after /\
          k = S (length before) /\
          delivered
            (mkSpotify (fun _ _ => Ok Py.None_) (fun _ _ _ _ => Ok Py.None_))
            [] before itemss /\
          fails
            (mkSpotify (fun _ _ => Ok Py.None_) (fun _ _ _ _ => Ok Py.None_))
            ([] ++ map GetAudioFeatures before) batch e).
Proof.
  apply (get_audio_features_requests
           (mkSpotify (fun _ _ => Ok Py.None_) (fun _ _ _ _ => Ok Py.None_))
           [Py.Str "2EqlS6tkEnglzr7tkKAAYD"] []).
  reflexivity.
Defined.

Lemma get_audio_features_loop_prefix (sp : Spotify)
    (track_ids : list Py.value) (done rest : list nat) :
  forall acc log answers,
    answered sp log
      (map (fun i => Py.slice track_ids i (i + 100)) done) answers ->
    get_audio_features_loop sp track_ids (done ++ rest) acc log
    = get_audio_features_loop sp track_ids rest (acc ++ concat answers)
        (log ++ map GetAudioFeatures
                  (map (fun i => Py.slice track_ids i (i + 100)) done)).
Proof.
  induction done as [|i done IH]; intros acc log answers H;
    inversion H; subst; cbn [app get_audio_features_loop map concat].
  - now rewrite !app_nil_r.
  - unfold cbind at 1. unfold sp_audio_features.
    match goal with Hans : audio_features _ _ _ = _ |- _ => rewrite Hans end.
    unfold cbind at 1. unfold lift. cbn [Py.iter].
    rewrite (IH _ _ _ ltac:(eassumption)).
    now rewrite <- !app_assoc.
Qed.

(** X19. A batch that is not answered with a sequence ends the lookup:
    when the batches before it are answered with lists and the service
    raises on it, the exception passes to the caller; when the service
    answers it with null, the call raises [TypeError].  Either way the
    features received so far are not returned and no later batch is
    sent. *)
Theorem get_audio_features_failure (sp : Spotify)
    (track_ids : list Py.value) (log : list request)
    (before : list (list Py.value)) (batch : list Py.value)
    (after answers : list (list Py.value)) :
  batches_of track_ids = before ++ batch :: after ->
  answered sp log before answers ->
  (forall e,
      audio_features sp (log ++ map GetAudioFeatures before) batch = Raise e ->
      get_audio_features sp track_ids log
      = (Raise e, log ++ map GetAudioFeatures (before ++ [batch]))) /\
  (audio_features sp (log ++ map GetAudioFeatures before) batch = Ok Py.None_ ->
   get_audio_features sp track_ids log
   = (Raise TypeError, log ++ map GetAudioFeatures (before ++ [batch]))).
Proof.
  intros Hsplit Hbefore. unfold batches_of in Hsplit.
  apply map_eq_app in Hsplit as (done & rest & Hstarts & Hdone & Hrest).
  apply map_eq_cons in Hrest as (i & rest' & -> & Hi & _).
  unfold get_audio_features. rewrite Hstarts.
  rewrite <- Hdone in Hbefore.
  rewrite (get_audio_features_loop_prefix _ _ _ _ _ _ _ Hbefore).
  rewrite Hdone. cbn [get_audio_features_loop]. rewrite Hi.
  split; intros; unfold cbind at 1; unfold sp_audio_features.
  - rewrite H. now rewrite map_app, app_assoc.
  - rewrite H. unfold cbind at 1. unfold lift. cbn [Py.iter].
    now rewrite map_app, app_assoc.
Qed.

Lemma get_audio_features_failure_witness :
  get_audio_features
    (mkSpotify (fun _ _ => Ok Py.None_) (fun _ _ _ _ => Ok Py.None_))
    [Py.Str "2EqlS6tkEnglzr7tkKAAYD"] []
  = (Raise TypeError,
     [] ++ map GetAudioFeatures ([] ++ [[Py.Str "2EqlS6tkEnglzr7tkKAAYD"]])).
Proof.
  apply (get_audio_features_failure
           (mkSpotify (fun _ _ => Ok Py.None_) (fun _ _ _ _ => Ok Py.None_))
           [Py.Str "2EqlS6tkEnglzr7tkKAAYD"] [] []
           [Py.Str "2EqlS6tkEnglzr7tkKAAYD"] [] []).
  - reflexivity.
  - constructor.
  - reflexivity.
Defined.

(** X20. Looking up the features of the extracted identifiers: for
    entries with identifiers [ids] and a service that answers every
    identifier in place, [extract_track_ids] followed by
    [get_audio_features] returns one feature vector per identifier, in
    the order of the identifiers.  The result is aligned with the entries
    that have a track, not with the list of entries. *)
Theorem extract_then_get_audio_features (sp : Spotify)
    (tracks ids : list Py.value) (f : Py.value -> Py.value)
    (log : list request) :
  surviving_ids tracks ids ->
  (forall log' batch,
      audio_features sp log' batch = Ok (Py.List (map f batch))) ->
  (track_ids <- lift (extract_track_ids sp tracks) ;;
   get_audio_features sp track_ids)%client log
  = (Ok (map f ids), log ++ map GetAudioFeatures (batches_of ids)) /\
  length (map f ids) <= length tracks.
Proof.
  intros Hids Hf. split.
  - unfold cbind, lift. rewrite (extract_track_ids_surviving sp _ _ Hids).
    unfold get_audio_features.
    rewrite (get_audio_features_loop_answered _ _ _ _ _ _
               (answered_pointwise sp f Hf _ log)).
    fold (batches_of ids).
    now rewrite <- concat_map, concat_batches_of.
  - rewrite length_map. now apply surviving_ids_length.
Qed.

Lemma extract_then_get_audio_features_witness :
  (track_ids <- lift (extract_track_ids Sample.service
                        [Sample.come_together; Sample.removed;
                         Sample.something]) ;;
   get_audio_features Sample.service track_ids)%client []
  = (Ok [Sample.features; Sample.features],
     [GetAudioFeatures [Py.Str "2EqlS6tkEnglzr7tkKAAYD";
                        Py.Str "0pNeVovbiZHkulpGeOx1Gj"]]).
Proof.
  apply (extract_then_get_audio_features Sample.service
           [Sample.come_together; Sample.removed; Sample.something]
           [Py.Str "2EqlS6tkEnglzr7tkKAAYD"; Py.Str "0pNeVovbiZHkulpGeOx1Gj"]
           Sample.lookup []).
  - eapply surviving_track; [reflexivity | reflexivity |].
    eapply surviving_null; [reflexivity |].
    eapply surviving_track; [reflexivity | reflexivity |].
    apply surviving_nil.
  - intros log' batch. reflexivity.
Defined.

(** ** Lookup by name and artist, continued *)

Lemma search_loop_prefix sp time_points log done matches :
  matched sp log done matches ->
  forall rest i tracks,
    readable time_points (i + length done) ->
    search_loop sp time_points i (done ++ rest) tracks log
    = search_loop sp time_points (i + length done) rest
        (tracks ++ kept time_points i matches)
        (log ++ map search_request done).
Proof.
  induction 1 as [log|log pair pairs results m matches Hs Hm _ IH];
    intros rest i tracks Hread.
  - cbn [app length kept map]. now rewrite Nat.add_0_r, !app_nil_r.
  - assert (Hnext : readable time_points (S i + length pairs)).
    { destruct Hread as [Hnone | (l & Hl & Hbound)]; [now left|].
      right. exists l. split; [exact Hl|]. simpl in Hbound. lia. }
    cbn [app length]. replace (i + S (length pairs)) with (S i + length pairs)
      by lia.
    destruct m as [track|].
    + rewrite (search_loop_hit _ _ _ _ _ _ _ _ _ Hs Hm).
      rewrite (read_stamp _ i _ Hread) by (simpl; lia).
      rewrite (IH _ _ _ Hnext). cbn [kept map].
      now rewrite <- !app_assoc.
    + rewrite (search_loop_miss _ _ _ _ _ _ _ _ Hs Hm).
      rewrite (IH _ _ _ Hnext). cbn [kept map].
      now rewrite <- !app_assoc.
Qed.

Lemma guards_pass sp track_names artist_names time_points log :
  length track_names = length artist_names ->
  (len_time_points time_points = 0 \/
   len_time_points time_points = length track_names) ->
  get_tracks_by_names_and_artists sp track_names artist_names time_points log
  = search_loop sp time_points 0 (combine track_names artist_names) [] log.
Proof.
  intros Hlen Htime. unfold get_tracks_by_names_and_artists.
  rewrite Hlen, Nat.eqb_refl. cbn [negb].
  destruct Htime as [-> | ->]; [reflexivity|].
  now rewrite Hlen, Nat.eqb_refl, andb_false_r.
Qed.

Lemma readable_prefix time_points (track_names artist_names : list string)
    (done rest : list (string * string)) :
  length track_names = length artist_names ->
  (len_time_points time_points = 0 \/
   exists l, time_points = Series l /\ length l = length track_names) ->
  combine track_names artist_names = done ++ rest ->
  readable time_points (0 + length done).
Proof.
  intros Hlen Htime Hsplit.
  assert (Hdone : length done <= length track_names).
  { pose proof (f_equal (@length _) Hsplit) as H.
    rewrite length_combine, length_app in H. lia. }
  destruct Htime as [Hnone | (l & Hl & Hsame)]; [now left|].
  right. exists l. split; [exact Hl | simpl; lia].
Qed.

(** X21. An exception of the service ends the search: when the searches
    before some name are answered and the service raises on that name,
    the exception passes to the caller; the matches found before are not
    returned and no later search is sent. *)
Theorem get_tracks_by_names_and_artists_service_error (sp : Spotify)
    (track_names artist_names : list string) (time_points : time_points_arg)
    (log : list request) (done : list (string * string))
    (pair : string * string) (rest : list (string * string))
    (matches : list (option Py.value)) (e : exn) :
  length track_names = length artist_names ->
  (len_time_points time_points = 0 \/
   exists l, time_points = Series l /\ length l = length track_names) ->
  combine track_names artist_names = done ++ pair :: rest ->
  matched sp log done matches ->
  search sp (log ++ map search_request done)
    (query_of (fst pair) (snd pair)) "track" 1 = Raise e ->
  get_tracks_by_names_and_artists sp track_names artist_names time_points log
  = (Raise e, log ++ map search_request (done ++ [pair])).
Proof.
  intros Hlen Htime Hsplit Hdone Hfail.
  rewrite guards_pass; [|exact Hlen|].
  - rewrite Hsplit.
    rewrite (search_loop_prefix _ _ _ _ _ Hdone)
      by (eapply readable_prefix; eassumption).
    destruct pair as [track_name artist_name]. cbn [search_loop].
    unfold cbind at 1. unfold sp_search. cbn [fst snd] in Hfail.
    rewrite Hfail. now rewrite map_app, app_assoc.
  - destruct Htime as [Hnone | (l & -> & Hsame)]; [now left | now right].
Qed.

Lemma get_tracks_by_names_and_artists_service_error_witness :
  get_tracks_by_names_and_artists
    (mkSpotify (fun _ _ => Ok Py.None_)
               (fun log q type limit =>
                  match log with
                  | [] => search Sample.service log q type limit
                  | _ :: _ => Raise (ServiceError 429)
                  end))
    ["Something"; "Come Together"] ["The Beatles"; "The Beatles"]
    (PyList []) []
  = (Raise (ServiceError 429),
     [] ++ map search_request
             ([("Something", "The Beatles")]
              ++ [("Come Together", "The Beatles")])).
Proof.
  eapply (get_tracks_by_names_and_artists_service_error _ _ _ _ []
            [("Something", "The Beatles")] ("Come Together", "The Beatles") []).
  - reflexivity.
  - now left.
  - reflexivity.
  - eapply matched_cons; [reflexivity | reflexivity | apply matched_nil].
  - reflexivity.
Defined.

(** X22. An answer that is not a dict ends the search with
    [AttributeError]: when the searches before some name are answered
    and the answer for that name is null, a list, or any other value
    without the method [get], no result is returned. *)
Theorem get_tracks_by_names_and_artists_bad_answer (sp : Spotify)
    (track_names artist_names : list string) (time_points : time_points_arg)
    (log : list request) (done : list (string * string))
    (pair : string * string) (rest : list (string * string))
    (matches : list (option Py.value)) (answer : Py.value) :
  length track_names = length artist_names ->
  (len_time_points time_points = 0 \/
   exists l, time_points = Series l /\ length l = length track_names) ->
  combine track_names artist_names = done ++ pair :: rest ->
  matched sp log done matches ->
  search sp (log ++ map search_request done)
    (query_of (fst pair) (snd pair)) "track" 1 = Ok answer ->
  (forall d, answer <> Py.Dict d) ->
  get_tracks_by_names_and_artists sp track_names artist_names time_points log
  = (Raise AttributeError, log ++ map search_request (done ++ [pair])).
Proof.
  intros Hlen Htime Hsplit Hdone Hanswer Hbad.
  rewrite guards_pass; [|exact Hlen|].
  - rewrite Hsplit.
    rewrite (search_loop_prefix _ _ _ _ _ Hdone)
      by (eapply readable_prefix; eassumption).
    destruct pair as [track_name artist_name]. cbn [search_loop].
    unfold cbind at 1. unfold sp_search. cbn [fst snd] in Hanswer.
    rewrite Hanswer. unfold cbind at 1. unfold lift.
    destruct answer; try (now rewrite map_app, app_assoc).
    now destruct (Hbad d).
  - destruct Htime as [Hnone | (l & -> & Hsame)]; [now left | now right].
Qed.

Lemma get_tracks_by_names_and_artists_bad_answer_witness :
  get_tracks_by_names_and_artists
    (mkSpotify (fun _ _ => Ok Py.None_) (fun _ _ _ _ => Ok Py.None_))
    ["Something"] ["The Beatles"] (PyList []) []
  = (Raise AttributeError,
     [] ++ map search_request ([] ++ [("Something", "The Beatles")])).
Proof.
  eapply (get_tracks_by_names_and_artists_bad_answer _ _ _ _ [] []
            ("Something", "The Beatles") [] []).
  - reflexivity.
  - now left.
  - reflexivity.
  - apply matched_nil.
  - reflexivity.
  - discriminate.
Defined.

Lemma search_loop_no_match sp time_points pairs :
  (forall log q, exists d,
      search sp log q "track" 1 = Ok (Py.Dict d) /\
      (Py.assoc "tracks" d = None \/
       exists t, Py.assoc "tracks" d = Some (Py.Dict t) /\
                 (Py.assoc "items" t = None \/
                  Py.assoc "items" t = Some (Py.List [])))) ->
  forall i tracks log,
    search_loop sp time_points i pairs tracks log
    = (Ok tracks, log ++ map search_request pairs).
Proof.
  intros Hsp. induction pairs as [|pair pairs IH]; intros i tracks log.
  - cbn. unfold cret. now rewrite app_nil_r.
  - destruct (Hsp log (query_of (fst pair) (snd pair))) as (d & Hs & Hd).
    rewrite (search_loop_miss _ _ _ _ _ _ _ _ Hs).
    + rewrite IH. cbn [map]. now rewrite <- app_assoc.
    + unfold best_match. cbn [Py.get].
      destruct Hd as [-> | (t & -> & Ht)]; [reflexivity|].
      cbn [rbind Py.get]. destruct Ht as [-> | ->]; reflexivity.
Qed.

(** X23. An answer without matches is no error, in whatever form it
    comes: when every answer is a dict that lacks the key [tracks], or
    whose [tracks] lack the key [items] or hold an empty item list, the
    call sends one search per name and returns the empty list; the time
    points are then never read, so a plain list of them is accepted. *)
Theorem get_tracks_by_names_and_artists_no_match (sp : Spotify)
    (track_names artist_names : list string) (time_points : time_points_arg)
    (log : list request) :
  length track_names = length artist_names ->
  (len_time_points time_points = 0 \/
   len_time_points time_points = length track_names) ->
  (forall log' q, exists d,
      search sp log' q "track" 1 = Ok (Py.Dict d) /\
      (Py.assoc "tracks" d = None \/
       exists t, Py.assoc "tracks" d = Some (Py.Dict t) /\
                 (Py.assoc "items" t = None \/
                  Py.assoc "items" t = Some (Py.List [])))) ->
  get_tracks_by_names_and_artists sp track_names artist_names time_points log
  = (Ok [], log ++ map search_request (combine track_names artist_names)).
Proof.
  intros Hlen Htime Hsp. rewrite guards_pass by assumption.
  now apply search_loop_no_match.
Qed.

Lemma get_tracks_by_names_and_artists_no_match_witness :
  get_tracks_by_names_and_artists
    (mkSpotify (fun _ _ => Ok Py.None_)
               (fun _ _ _ _ => Ok (Py.Dict [("error", Py.Int 0)])))
    ["Something"] ["The Beatles"] (PyList [Py.Str "2024-09-03"]) []
  = (Ok [], [] ++ map search_request
                    (combine ["Something"] ["The Beatles"])).
Proof.
  apply get_tracks_by_names_and_artists_no_match.
  - reflexivity.
  - now right.
  - intros log' q. eexists. split; [reflexivity|]. now left.
Defined.

Lemma extract_track_ids_kept (sp : Spotify) (time_points : time_points_arg)
    (matches : list (option Py.value)) :
  Forall (fun m => forall track, m = Some track ->
                     exists d id, track = Py.Dict d /\
                                  Py.assoc "id" d = Some id) matches ->
  forall i,
  exists ids,
    extract_track_ids sp (kept time_points i matches) = Ok ids /\
    length ids = length (kept time_points i matches).
Proof.
  induction 1 as [|m matches Hm _ IH]; intros i.
  - exists []. split; reflexivity.
  - destruct m as [track|]; cbn [kept].
    + destruct (Hm track eq_refl) as (d & id & -> & Hid).
      destruct (IH (S i)) as (ids & Hids & Hn).
      exists (id :: ids). split.
      * cbn [extract_track_ids Py.getitem Py.assoc String.eqb Ascii.eqb
               Bool.eqb rbind].
        rewrite (truthy_dict_assoc _ _ _ Hid). cbn [Py.getitem rbind].
        now rewrite Hid, Hids.
      * simpl. now rewrite Hn.
    + apply IH.
Qed.

(** X24. Search results can be fed to [extract_track_ids] without loss:
    under the conditions of a successful search, when every matched track
    is a dict with an [id], the identifiers extracted from the returned
    entries are one per entry. *)
Theorem search_then_extract_track_ids (sp : Spotify)
    (track_names artist_names : list string) (time_points : time_points_arg)
    (log : list request) (matches : list (option Py.value)) :
  length track_names = length artist_names ->
  (len_time_points time_points = 0 \/
   exists l, time_points = Series l /\ length l = length track_names) ->
  matched sp log (combine track_names artist_names) matches ->
  Forall (fun m => forall track, m = Some track ->
                     exists d id, track = Py.Dict d /\
                                  Py.assoc "id" d = Some id) matches ->
  exists entries ids log',
    get_tracks_by_names_and_artists sp track_names artist_names time_points log
    = (Ok entries, log') /\
    extract_track_ids sp entries = Ok ids /\
    length ids = length entries.
Proof.
  intros Hlen Htime Hmatched Hids.
  destruct (extract_track_ids_kept sp time_points matches Hids 0)
    as (ids & Hextract & Hn).
  exists (kept time_points 0 matches), ids. eexists.
  split; [|split; assumption].
  rewrite guards_pass; [|exact Hlen|].
  - change (Ok (kept time_points 0 matches))
      with (Ok ([] ++ kept time_points 0 matches)).
    apply search_loop_matched; [exact Hmatched|].
    pose proof (readable_prefix time_points track_names artist_names
                  (combine track_names artist_names) [] Hlen Htime
                  (eq_sym (app_nil_r _))) as H.
    exact H.
  - destruct Htime as [Hnone | (l & -> & Hsame)]; [now left | now right].
Qed.

Lemma search_then_extract_track_ids_witness :
  exists entries ids log',
    get_tracks_by_names_and_artists Sample.service
      ["Come Together"; "Something"] ["The Beatles"; "The Beatles"]
      (PyList []) []
    = (Ok entries, log') /\
    extract_track_ids Sample.service entries = Ok ids /\
    length ids = length entries.
Proof.
  apply (search_then_extract_track_ids Sample.service
           ["Come Together"; "Something"] ["The Beatles"; "The Beatles"]
           (PyList []) []
           [None; Some (Sample.track "Something" "0pNeVovbiZHkulpGeOx1Gj")]).
  - reflexivity.
  - now left.
  - eapply matched_cons; [reflexivity | reflexivity |].
    eapply matched_cons; [reflexivity | reflexivity |].
    apply matched_nil.
  - constructor; [discriminate|]. constructor; [|constructor].
    intros track H. inversion H; subst. do 2 eexists.
    split; reflexivity.
Defined.

(** ** Listing playlists and tracks *)

Lemma get_my_playlists_loop_pages sp log page itemss requests :
  pages sp log page itemss requests ->
  forall fuel playlists,
    length itemss < fuel ->
    get_my_playlists_loop fuel sp page playlists log
    = Some (Ok (playlists ++ concat itemss), log ++ requests).
Proof.
  induction 1 as [log d items following Hitems Hnext Hlast
                 |log d items following page' itemss requests
                    Hitems Hnext Hmore Hpage _ IH];
    intros fuel playlists Hfuel.
  - destruct fuel as [|[|fuel]]; [simpl in Hfuel; lia ..|].
    cbn [get_my_playlists_loop]. rewrite (truthy_dict_assoc _ _ _ Hitems).
    unfold lbind, llift. cbn [Py.getitem]. rewrite Hitems, Hnext.
    cbn [Py.iter]. rewrite Hlast. cbn [Py.truthy]. unfold lret.
    cbn [concat]. now rewrite !app_nil_r.
  - destruct fuel as [|fuel]; [simpl in Hfuel; lia|].
    cbn [get_my_playlists_loop]. rewrite (truthy_dict_assoc _ _ _ Hitems).
    unfold lbind at 1. unfold llift at 1. cbn [Py.getitem]. rewrite Hitems.
    unfold lbind at 1. unfold llift at 1. cbn [Py.iter].
    unfold lbind at 1. unfold llift at 1. rewrite Hnext, Hmore.
    unfold lbind at 1. unfold sp_next. rewrite Hpage.
    rewrite IH by (simpl in Hfuel; lia).
    cbn [concat]. now rewrite <- !app_assoc.
Qed.

(** X25. For a library that delivers a finite run of pages,
    [get_my_playlists] asks for the first page and then for each
    following page once, and returns the items of all pages in page
    order; the loop ends within one test of its condition more than
    there are pages. *)
Theorem get_my_playlists_pages (sp : Library) (log : list listing_request)
    (page : Py.value) (itemss : list (list Py.value))
    (requests : list listing_request) (fuel : nat) :
  current_user_playlists sp log = Ok page ->
  pages sp (log ++ [CurrentUserPlaylists]) page itemss requests ->
  length itemss < fuel ->
  get_my_playlists fuel sp log
  = Some (Ok (concat itemss), log ++ CurrentUserPlaylists :: requests).
Proof.
  intros Hfirst Hpages Hfuel. unfold get_my_playlists, lbind at 1.
  unfold sp_current_user_playlists. rewrite Hfirst.
  rewrite (get_my_playlists_loop_pages _ _ _ _ _ Hpages) by exact Hfuel.
  cbn [app]. now rewrite <- app_assoc.
Qed.

Lemma sample_pages (log : list listing_request) (request : listing_request) :
  log = [request] ->
  pages SamplePages.library log SamplePages.first
    [[Sample.come_together; Sample.removed]; [Sample.something]]
    [NextPage SamplePages.first].
Proof.
  intros ->.
  eapply pages_more; [reflexivity | reflexivity | reflexivity | reflexivity |].
  eapply pages_last; reflexivity.
Defined.

Lemma get_my_playlists_pages_witness :
  get_my_playlists 3 SamplePages.library []
  = Some (Ok [Sample.come_together; Sample.removed; Sample.something],
          [CurrentUserPlaylists; NextPage SamplePages.first]).
Proof.
  apply (get_my_playlists_pages SamplePages.library [] SamplePages.first
           [[Sample.come_together; Sample.removed]; [Sample.something]]
           [NextPage SamplePages.first] 3).
  - reflexivity.
  - now apply sample_pages with (request := CurrentUserPlaylists).
  - simpl. lia.
Defined.

Lemma get_tracks_loop_pages sp log page itemss requests :
  pages sp log page itemss requests ->
  forall fuel tracks,
    length itemss <= fuel ->
    get_tracks_loop fuel sp page tracks log
    = Some (Ok (tracks ++ concat (tl itemss)), log ++ requests).
Proof.
  induction 1 as [log d items following Hitems Hnext Hlast
                 |log d items following page' itemss requests
                    Hitems Hnext Hmore Hpage Hrest IH];
    intros fuel tracks Hfuel.
  - destruct fuel as [|fuel]; [simpl in Hfuel; lia|].
    cbn [get_tracks_loop]. unfold lbind, llift. cbn [Py.getitem].
    rewrite Hnext, Hlast. unfold lret. cbn [tl concat].
    now rewrite !app_nil_r.
  - destruct fuel as [|fuel]; [simpl in Hfuel; lia|].
    cbn [get_tracks_loop].
    unfold lbind at 1. unfold llift at 1. cbn [Py.getitem].
    rewrite Hnext, Hmore.
    unfold lbind at 1. unfold sp_next. rewrite Hpage.
    assert (Hhead : exists d' items' rest,
               page' = Py.Dict d' /\
               Py.assoc "items" d' = Some (Py.List items') /\
               itemss = items' :: rest).
    { inversion Hrest; subst; do 3 eexists; repeat split; eassumption. }
    destruct Hhead as (d' & items' & rest & -> & Hitems' & ->).
    unfold lbind at 1. unfold llift at 1. cbn [Py.getitem]. rewrite Hitems'.
    unfold lbind at 1. unfold llift at 1. cbn [Py.iter].
    rewrite IH by (simpl in *; lia).
    cbn [tl concat]. now rewrite <- !app_assoc.
Qed.

(** X26. [get_tracks] lists the playlist with the given identifier, or,
    when the identifier is null or the empty string, the saved tracks of
    the user at 50 per page; for a library that delivers a finite run of
    pages it then asks for each following page once and returns the
    items of all pages in page order, within as many tests of the loop
    condition as there are pages. *)
Theorem get_tracks_pages (sp : Library) (playlist_id : Py.value)
    (log : list listing_request) (page : Py.value)
    (itemss : list (list Py.value)) (requests : list listing_request)
    (fuel : nat) :
  let first := if Py.truthy playlist_id then PlaylistTracks playlist_id
               else CurrentUserSavedTracks 50 in
  (if Py.truthy playlist_id then playlist_tracks sp log playlist_id
   else current_user_saved_tracks sp log 50) = Ok page ->
  pages sp (log ++ [first]) page itemss requests ->
  length itemss <= fuel ->
  get_tracks fuel sp playlist_id log
  = Some (Ok (concat itemss), log ++ first :: requests).
Proof.
  intros first Hfirst Hpages Hfuel. unfold get_tracks, lbind at 1.
  assert (Hcall : (if Py.truthy playlist_id
                   then sp_playlist_tracks sp playlist_id
                   else sp_current_user_saved_tracks sp 50) log
                  = Some (Ok page, log ++ [first])).
  { subst first. destruct (Py.truthy playlist_id);
      unfold sp_playlist_tracks, sp_current_user_saved_tracks;
      now rewrite Hfirst. }
  rewrite Hcall.
  assert (Hhead : exists d items rest,
             page = Py.Dict d /\
             Py.assoc "items" d = Some (Py.List items) /\
             itemss = items :: rest).
  { inversion Hpages; subst; do 3 eexists; repeat split; eassumption. }
  destruct Hhead as (d & items & rest & -> & Hitems & ->).
  unfold lbind at 1. unfold llift at 1. cbn [Py.getitem]. rewrite Hitems.
  unfold lbind at 1. unfold llift at 1. cbn [Py.iter].
  rewrite (get_tracks_loop_pages _ _ _ _ _ Hpages) by exact Hfuel.
  cbn [tl concat app]. now rewrite <- app_assoc.
Qed.

Lemma get_tracks_pages_witness :
  get_tracks 2 SamplePages.library (Py.Str "") []
  = Some (Ok [Sample.come_together; Sample.removed; Sample.something],
          [CurrentUserSavedTracks 50; NextPage SamplePages.first]).
Proof.
  apply (get_tracks_pages SamplePages.library (Py.Str "") []
           SamplePages.first
           [[Sample.come_together; Sample.removed]; [Sample.something]]
           [NextPage SamplePages.first] 2).
  - reflexivity.
  - now apply sample_pages with (request := CurrentUserSavedTracks 50).
  - simpl. lia.
Defined.

(** X27. [get_my_playlists] takes a missing page for the end of the
    list: when the first answer is null or an empty dict it returns the
    empty list, and when the answer to a request for the next page is
    null it returns the items listed so far. *)
Theorem get_my_playlists_null_page (sp : Library)
    (log : list listing_request) (page : Py.value) (fuel : nat) :
  current_user_playlists sp log = Ok page ->
  (Py.truthy page = false -> 0 < fuel ->
   get_my_playlists fuel sp log = Some (Ok [], log ++ [CurrentUserPlaylists]))
  /\
  (forall d items following,
      page = Py.Dict d ->
      Py.assoc "items" d = Some (Py.List items) ->
      Py.assoc "next" d = Some following ->
      Py.truthy following = true ->
      next sp (log ++ [CurrentUserPlaylists]) page = Ok Py.None_ ->
      1 < fuel ->
      get_my_playlists fuel sp log
      = Some (Ok items, log ++ [CurrentUserPlaylists; NextPage page])).
Proof.
  intros Hfirst. split.
  - intros Hnull Hfuel. unfold get_my_playlists, lbind.
    unfold sp_current_user_playlists. rewrite Hfirst.
    destruct fuel as [|fuel]; [lia|].
    cbn [get_my_playlists_loop]. now rewrite Hnull.
  - intros d items following -> Hitems Hnext Hmore Hnone Hfuel.
    unfold get_my_playlists, lbind at 1.
    unfold sp_current_user_playlists. rewrite Hfirst.
    destruct fuel as [|[|fuel]]; [lia ..|].
    cbn [get_my_playlists_loop]. rewrite (truthy_dict_assoc _ _ _ Hitems).
    unfold lbind at 1. unfold llift at 1. cbn [Py.getitem]. rewrite Hitems.
    unfold lbind at 1. unfold llift at 1. cbn [Py.iter].
    unfold lbind at 1. unfold llift at 1. rewrite Hnext, Hmore.
    unfold lbind at 1. unfold sp_next. rewrite Hnone.
    cbn [Py.truthy]. unfold lret. cbn [app]. now rewrite <- app_assoc.
Qed.

Lemma get_my_playlists_null_page_witness :
  get_my_playlists 1 SamplePages.silent []
  = Some (Ok [], [] ++ [CurrentUserPlaylists]).
Proof.
  apply (get_my_playlists_null_page SamplePages.silent [] Py.None_ 1).
  - reflexivity.
  - reflexivity.
  - lia.
Defined.

(** X28. [get_tracks] does not take a missing page for the end of the
    list: when the first answer is null, or the answer to a request for
    the next page is null, it raises [TypeError] and returns no tracks. *)
Theorem get_tracks_null_page (sp : Library) (playlist_id : Py.value)
    (log : list listing_request) (page : Py.value) (fuel : nat) :
  let first := if Py.truthy playlist_id then PlaylistTracks playlist_id
               else CurrentUserSavedTracks 50 in
  (if Py.truthy playlist_id then playlist_tracks sp log playlist_id
   else current_user_saved_tracks sp log 50) = Ok page ->
  (page = Py.None_ ->
   get_tracks fuel sp playlist_id log
   = Some (Raise TypeError, log ++ [first])) /\
  (forall d items following,
      page = Py.Dict d ->
      Py.assoc "items" d = Some (Py.List items) ->
      Py.assoc "next" d = Some following ->
      Py.truthy following = true ->
      next sp (log ++ [first]) page = Ok Py.None_ ->
      0 < fuel ->
      get_tracks fuel sp playlist_id log
      = Some (Raise TypeError, log ++ [first; NextPage page])).
Proof.
  intros first Hfirst.
  assert (Hcall : (if Py.truthy playlist_id
                   then sp_playlist_tracks sp playlist_id
                   else sp_current_user_saved_tracks sp 50) log
                  = Some (Ok page, log ++ [first])).
  { subst first. destruct (Py.truthy playlist_id);
      unfold sp_playlist_tracks, sp_current_user_saved_tracks;
      now rewrite Hfirst. }
  split.
  - intros ->. unfold get_tracks, lbind at 1. now rewrite Hcall.
  - intros d items following -> Hitems Hnext Hmore Hnone Hfuel.
    unfold get_tracks, lbind at 1. rewrite Hcall.
    unfold lbind at 1. unfold llift at 1. cbn [Py.getitem]. rewrite Hitems.
    unfold lbind at 1. unfold llift at 1. cbn [Py.iter].
    destruct fuel as [|fuel]; [lia|].
    cbn [get_tracks_loop].
    unfold lbind at 1. unfold llift at 1. cbn [Py.getitem].
    rewrite Hnext, Hmore.
    unfold lbind at 1. unfold sp_next. rewrite Hnone.
    unfold lbind at 1. unfold llift at 1. cbn [Py.getitem].
    now rewrite <- app_assoc.
Qed.

Lemma get_tracks_null_page_witness :
  get_tracks 0 SamplePages.silent (Py.Str "37i9dQZF1DXcBWIGoYBM5M") []
  = Some (Raise TypeError,
          [] ++ [PlaylistTracks (Py.Str "37i9dQZF1DXcBWIGoYBM5M")]).
Proof.
  apply (get_tracks_null_page SamplePages.silent
           (Py.Str "37i9dQZF1DXcBWIGoYBM5M") [] Py.None_ 0); reflexivity.
Defined.

Lemma get_my_playlists_loop_endless sp page :
  endless sp page ->
  forall fuel playlists log,
    get_my_playlists_loop fuel sp page playlists log = None.
Proof.
  intros [(d & items & following & -> & Hitems & Hnext & Hmore) Hloop].
  induction fuel as [|fuel IH]; intros playlists log; [reflexivity|].
  cbn [get_my_playlists_loop]. rewrite (truthy_dict_assoc _ _ _ Hitems).
  unfold lbind at 1. unfold llift at 1. cbn [Py.getitem]. rewrite Hitems.
  unfold lbind at 1. unfold llift at 1. cbn [Py.iter].
  unfold lbind at 1. unfold llift at 1. rewrite Hnext, Hmore.
  unfold lbind at 1. unfold sp_next. rewrite Hloop. apply IH.
Qed.

Lemma get_tracks_loop_endless sp page :
  endless sp page ->
  forall fuel tracks log,
    get_tracks_loop fuel sp page tracks log = None.
Proof.
  intros [(d & items & following & -> & Hitems & Hnext & Hmore) Hloop].
  induction fuel as [|fuel IH]; intros tracks log; [reflexivity|].
  cbn [get_tracks_loop].
  unfold lbind at 1. unfold llift at 1. cbn [Py.getitem].
  rewrite Hnext, Hmore.
  unfold lbind at 1. unfold sp_next. rewrite Hloop.
  unfold lbind at 1. unfold llift at 1. cbn [Py.getitem]. rewrite Hitems.
  unfold lbind at 1. unfold llift at 1. cbn [Py.iter]. apply IH.
Qed.

(** X29. Nothing bounds the listing loops but the service: with a
    library whose first page names a next page and which answers every
    request for the next page with that same page, neither
    [get_my_playlists] nor [get_tracks] finishes, however many times the
    loop condition may be tested. *)
Theorem listing_never_ends (sp : Library) (page : Py.value)
    (playlist_id : Py.value) (log : list listing_request) :
  endless sp page ->
  current_user_playlists sp log = Ok page ->
  (if Py.truthy playlist_id then playlist_tracks sp log playlist_id
   else current_user_saved_tracks sp log 50) = Ok page ->
  forall fuel,
    get_my_playlists fuel sp log = None /\
    get_tracks fuel sp playlist_id log = None.
Proof.
  intros Hendless Hplaylists Htracks fuel. split.
  - unfold get_my_playlists, lbind, sp_current_user_playlists.
    rewrite Hplaylists. now apply get_my_playlists_loop_endless.
  - unfold get_tracks, lbind at 1.
    assert (Hcall : exists log',
               (if Py.truthy playlist_id
                then sp_playlist_tracks sp playlist_id
                else sp_current_user_saved_tracks sp 50) log
               = Some (Ok page, log')).
    { destruct (Py.truthy playlist_id);
        unfold sp_playlist_tracks, sp_current_user_saved_tracks;
        rewrite Htracks; eexists; reflexivity. }
    destruct Hcall as (log' & ->).
    pose proof Hendless as [(d & items & following & -> & Hitems & _) _].
    unfold lbind at 1. unfold llift at 1. cbn [Py.getitem]. rewrite Hitems.
    unfold lbind at 1. unfold llift at 1. cbn [Py.iter].
    now apply get_tracks_loop_endless.
Qed.

Lemma listing_never_ends_witness :
  get_my_playlists 1000 SamplePages.looping [] = None /\
  get_tracks 1000 SamplePages.looping Py.None_ [] = None.
Proof.
  apply (listing_never_ends SamplePages.looping SamplePages.first Py.None_ []).
  - split.
    + do 3 eexists. repeat split; reflexivity.
    + intros log. reflexivity.
  - reflexivity.
  - reflexivity.
Defined.

(** ** Bootstrap confidence interval *)





















